(** * Boone's method for the preconsolidation pressure ([pysimgap/boone.py])

    A shallow embedding of [Boone.getSigmaP] and of the library calls it
    makes, followed by the properties of the method.

    Numbers.  The program computes on IEEE binary64 values.  They are
    modelled by [float64]: a finite value is a real number, and the three
    special values [+inf], [-inf] and [nan] follow the IEEE rules numpy
    applies, so that a division by zero or the logarithm of a non-positive
    number is a value, as in numpy, and not an error.  The power [10 ** x]
    overflows to [+inf] and underflows to zero at the limits of binary64.
    The rounding of each operation is not modelled: where a property of the
    method would depend on it, the property is stated on the operations the
    program performs and not on the real numbers they approximate.  The
    eight-decade example is computed in exact arithmetic; what is concluded
    from it, an overflow by thousands of orders of magnitude, does not depend
    on the rounding.

    Libraries.  [np.log10], [np.linspace], [polyfit], [polyval] (numpy),
    [r2_score] (scikit-learn) and the positional operations of a pandas
    Series are modelled from their documented behaviour.

    The method.  [getSigmaP] is the numerical part of the method (lines
    71-118): it returns the values the figure is drawn from.
    [getSigmaP_fig] is the whole method: the numerical part, then the drawing
    of the figure (lines 120-149), which matplotlib performs and which can
    fail after [self.sigmaP] has been assigned. *)

From Stdlib Require Import Reals Lra Lia ZArith List Bool Sorted ClassicalEpsilon.
Import ListNotations.

Set Implicit Arguments.

Local Open Scope R_scope.

(** ** Exceptions and the error monad *)

(** The exception classes the libraries can raise into [getSigmaP]
    ([RuntimeError] stands for what matplotlib raises while drawing),
    followed by the three classes of the specification's taxonomy. *)
Inductive exn : Type :=
| TypeError
| ValueError
| IndexError
| LinAlgError
| RuntimeError
| DomainError
| InvalidRangeError
| NoIntersectionError.

Inductive res (A : Type) : Type :=
| Return (a : A)
| Raise (e : exn).

Arguments Return {A} a.
Arguments Raise {A} e.

(** ** Idealised binary64 values *)

Inductive float64 : Type :=
| Fin (r : R)
| PInf
| NInf
| NaN.

Definition Rltb (a b : R) : bool := if Rlt_dec a b then true else false.

Definition Reqb (a b : R) : bool := if Req_dec_T a b then true else false.

(** Unary minus. *)
Definition neg (x : float64) : float64 :=
  match x with
  | Fin a => Fin (- a)
  | PInf => NInf
  | NInf => PInf
  | NaN => NaN
  end.

Definition add (x y : float64) : float64 :=
  match x, y with
  | NaN, _ | _, NaN => NaN
  | Fin a, Fin b => Fin (a + b)
  | PInf, NInf | NInf, PInf => NaN
  | PInf, _ | _, PInf => PInf
  | NInf, _ | _, NInf => NInf
  end.

(** [x - y] is [x + (-y)] in IEEE arithmetic. *)
Definition sub (x y : float64) : float64 := add x (neg y).

(** An infinity times the finite [a]: the sign of [a] decides, and
    [inf * 0] is [nan]. *)
Definition scale_inf (inf : float64) (a : R) : float64 :=
  if Rltb 0 a then inf else if Rltb a 0 then neg inf else NaN.

Definition mul (x y : float64) : float64 :=
  match x, y with
  | NaN, _ | _, NaN => NaN
  | Fin a, Fin b => Fin (a * b)
  | Fin a, PInf | PInf, Fin a => scale_inf PInf a
  | Fin a, NInf | NInf, Fin a => scale_inf NInf a
  | PInf, PInf | NInf, NInf => PInf
  | PInf, NInf | NInf, PInf => NInf
  end.

(** numpy's true division: dividing by zero raises nothing, it yields an
    infinity, or [nan] for [0/0] (with a RuntimeWarning only). *)
Definition div (x y : float64) : float64 :=
  match x, y with
  | NaN, _ | _, NaN => NaN
  | Fin a, Fin b => if Reqb b 0 then scale_inf PInf a else Fin (a / b)
  | Fin _, PInf | Fin _, NInf => Fin 0
  | PInf, Fin b => if Rltb b 0 then NInf else PInf
  | NInf, Fin b => if Rltb b 0 then PInf else NInf
  | PInf, PInf | PInf, NInf | NInf, PInf | NInf, NInf => NaN
  end.

(** [x < y]; every comparison with [nan] is false. *)
Definition ltb (x y : float64) : bool :=
  match x, y with
  | NaN, _ | _, NaN => false
  | Fin a, Fin b => Rltb a b
  | _, NInf => false
  | PInf, _ => false
  | NInf, _ => true
  | Fin _, PInf => true
  end.

Definition fabs (x : float64) : float64 :=
  match x with
  | Fin a => Fin (Rabs a)
  | PInf | NInf => PInf
  | NaN => NaN
  end.

(** The largest binary64 number, [(2 - 2**-52) * 2**1023]. *)
Definition DBL_MAX : R := (2 - Rpower 2 (-52)) * Rpower 2 1023.

(** Half the smallest positive binary64 number, [2**-1075]: what lies below
    it is rounded to zero. *)
Definition DBL_TINY : R := Rpower 2 (-1075).

(** [10 ** x]: a power above the largest binary64 number overflows to
    [+inf], and one below the smallest underflows to zero (numpy warns and
    raises nothing). *)
Definition pow10 (x : float64) : float64 :=
  match x with
  | Fin a =>
      if Rltb DBL_MAX (Rpower 10 a) then PInf
      else if Rltb (Rpower 10 a) DBL_TINY then Fin 0
      else Fin (Rpower 10 a)
  | PInf => PInf
  | NInf => Fin 0
  | NaN => NaN
  end.

Declare Scope f64_scope.
Delimit Scope f64_scope with f64.
Notation "x + y" := (add x y) : f64_scope.
Notation "x - y" := (sub x y) : f64_scope.
Notation "x * y" := (mul x y) : f64_scope.
Notation "x / y" := (div x y) : f64_scope.
Notation "- x" := (neg x) : f64_scope.
Notation "x <? y" := (ltb x y) : f64_scope.

(** The finite values of a list, when all of them are finite. *)
Fixpoint finite_all (l : list float64) : option (list R) :=
  match l with
  | [] => Some []
  | Fin a :: l' =>
      match finite_all l' with
      | Some rs => Some (a :: rs)
      | None => None
      end
  | _ :: _ => None
  end.

(** ** numpy *)

Module np.

(** [np.log10]: [-inf] at zero and [nan] below zero, with a RuntimeWarning
    and no exception. *)
Definition log10 (x : float64) : float64 :=
  match x with
  | Fin a => if Rltb 0 a then Fin (ln a / ln 10)
             else if Reqb a 0 then NInf else NaN
  | PInf => PInf
  | NInf => NaN
  | NaN => NaN
  end.

(** [int(np.floor(n / 3))] for a length [n]. *)
Definition floor_third (n : Z) : Z := (n / 3)%Z.

(** [int(np.ceil(2 * n / 3))] for a length [n]. *)
Definition ceil_two_thirds (n : Z) : Z := (- ((- (2 * n)) / 3))%Z.

(** [np.linspace(start, stop, num)]: [num] evenly spaced samples, the last
    one being [stop] itself. *)
Definition linspace (start stop : float64) (num : nat) : list float64 :=
  let step := ((stop - start) / Fin (INR (num - 1)))%f64 in
  map (fun i => if Nat.eqb i (num - 1) then stop
                else Fin (INR i) * step + start)%f64
      (seq 0 num).

End np.

(** [polyval(x, c)] of [numpy.polynomial.polynomial]: Horner's scheme from
    the highest coefficient, started at [c[-1] + x*0]. *)
Definition polyval (x : float64) (c : list float64) : float64 :=
  match rev c with
  | [] => NaN
  | ck :: cs => fold_left (fun acc ci => ci + acc * x)%f64 cs
                          (ck + x * Fin 0)%f64
  end.

(** The value at [x] of the real polynomial with coefficients [c], lowest
    degree first. *)
Definition peval (c : list R) (x : R) : R :=
  fold_right (fun ci acc => ci + x * acc) 0 c.

(** Sum of the squared residuals of the polynomial [c] on the points
    [(xs, ys)]. *)
Definition sq_resid (c xs ys : list R) : R :=
  fold_right Rplus 0
    (map (fun p => (peval c (fst p) - snd p) * (peval c (fst p) - snd p))
         (combine xs ys)).

(** [c] is a least-squares polynomial of degree [deg] for the points. *)
Definition least_squares (deg : nat) (xs ys c : list R) : Prop :=
  length c = S deg /\
  forall c', length c' = S deg -> sq_resid c xs ys <= sq_resid c' xs ys.

(** The solver behind [polyfit] (LAPACK's least squares through
    [np.linalg.lstsq]): a least-squares coefficient vector, which the solver
    approaches up to rounding.  When several vectors attain the minimum (a
    rank-deficient fit, which numpy reports with a RankWarning and no
    exception) the one returned is left open.  Its value is used for the
    eight-decade example only. *)
Definition lstsq (deg : nat) (xs ys : list R) : list R :=
  let c := epsilon (inhabits (repeat 0 (S deg))) (least_squares deg xs ys) in
  map (fun j => nth j c 0) (seq 0 (S deg)).

(** [polyfit(x, y, deg)] of [numpy.polynomial.polynomial]: an empty [x] is
    rejected with TypeError; a non-finite abscissa enters the matrix of the
    system and makes the solver fail with LinAlgError; a non-finite ordinate
    enters its right-hand side only, and the solver then returns [deg + 1]
    coefficients that are not finite, without an error; otherwise the
    [deg + 1] coefficients, lowest degree first. *)
Definition polyfit (x y : list float64) (deg : nat) : res (list float64) :=
  match x with
  | [] => Raise TypeError
  | _ :: _ =>
      if negb (Nat.eqb (length x) (length y)) then Raise TypeError
      else match finite_all x with
           | None => Raise LinAlgError
           | Some xs =>
               match finite_all y with
               | Some ys => Return (map Fin (lstsq deg xs ys))
               | None => Return (repeat NaN (S deg))
               end
           end
  end.

(** ** scikit-learn *)

Definition Rsum (l : list R) : R := fold_right Rplus 0 l.

Definition Rmean (l : list R) : R := Rsum l / INR (length l).

(** [r2_score(y_true, y_pred)]: the inputs are validated (ValueError on
    columns of different lengths, on an empty column and on a [nan] or an
    infinity in either column), fewer than two samples give [nan] with a
    warning, and a constant [y_true] gives 1 for a perfect prediction and 0
    otherwise.  The score is written in exact arithmetic; the properties
    below depend on whether it is computed, not on its value. *)
Definition r2_score (y_true y_pred : list float64) : res float64 :=
  if negb (Nat.eqb (length y_true) (length y_pred)) then Raise ValueError
  else match finite_all y_true, finite_all y_pred with
       | Some yt, Some yp =>
           match yt with
           | [] => Raise ValueError
           | [_] => Return NaN
           | _ =>
               let num := Rsum (map (fun p => (fst p - snd p) * (fst p - snd p))
                                    (combine yt yp)) in
               let m := Rmean yt in
               let den := Rsum (map (fun y => (y - m) * (y - m)) yt) in
               if negb (Reqb den 0) then Return (Fin (1 - num / den))
               else if negb (Reqb num 0) then Return (Fin 0)
               else Return (Fin 1)
           end
       | _, _ => Raise ValueError
       end.

(** ** pandas *)

(** A DataFrame with the two columns ['stress'] and ['e'], as its rows. *)
Definition DataFrame : Type := list (float64 * float64).

Definition col_stress (df : DataFrame) : list float64 := map fst df.

Definition col_e (df : DataFrame) : list float64 := map snd df.

(** A bound of a Python slice over [n] items: a negative index counts from
    the end, and the result is clamped to [0..n]. *)
Definition slice_bound (n i : Z) : Z :=
  if (i <? 0)%Z then Z.max 0 (i + n) else Z.min i n.

(** [s[start:stop]] with integer or [None] bounds: positional on a Series,
    never raising. *)
Definition slice {A : Type} (s : list A) (start stop : option Z) : list A :=
  let n := Z.of_nat (length s) in
  let lo := match start with None => 0%Z | Some i => slice_bound n i end in
  let hi := match stop with None => n | Some j => slice_bound n j end in
  firstn (Z.to_nat (hi - lo)) (skipn (Z.to_nat lo) s).

(** [s.iloc[i]]: IndexError out of bounds. *)
Definition iloc {A : Type} (s : list A) (i : Z) : res A :=
  let n := Z.of_nat (length s) in
  let j := if (i <? 0)%Z then (i + n)%Z else i in
  if ((0 <=? j) && (j <? n))%Z
  then match nth_error s (Z.to_nat j) with
       | Some a => Return a
       | None => Raise IndexError
       end
  else Raise IndexError.

(** [s.max()]: [nan] entries are skipped, and an empty Series gives [nan]. *)
Definition series_max (s : list float64) : float64 :=
  fold_left (fun m x => match x, m with
                        | NaN, _ => m
                        | _, NaN => x
                        | _, _ => if (m <? x)%f64 then x else m
                        end) s NaN.

(** ** The data object and the Boone object *)

(** The attributes of the [Data] object that [getSigmaP] reads. *)
Record Data : Type := {
  raw : DataFrame;
  cleaned : DataFrame;
  sigmaV : float64;
  idxCr : float64
}.

(** A [Boone] object: [self.data], and [self.sigmaP] once it is assigned. *)
Record Boone : Type := {
  data : Data;
  sigmaP : option float64
}.

(** [Boone.__init__]. *)
Definition init (d : Data) : Boone := {| data := d; sigmaP := None |}.

(** A method body: it may update [self] and may raise; what was assigned
    before an exception stays assigned. *)
Definition method (A : Type) : Type := Boone -> Boone * res A.

Definition ret {A : Type} (a : A) : method A := fun self => (self, Return a).

Definition bind {A B : Type} (m : method A) (k : A -> method B) : method B :=
  fun self =>
    match m self with
    | (self', Return a) => k a self'
    | (self', Raise e) => (self', Raise e)
    end.

(** A library call: it may raise and does not touch [self]. *)
Definition call {A : Type} (r : res A) : method A := fun self => (self, r).

(** Reading [self.data]. *)
Definition get_data : method Data := fun self => (self, Return (data self)).

(** The assignment [self.sigmaP = v]. *)
Definition set_sigmaP (v : float64) : method unit :=
  fun self => ({| data := data self; sigmaP := Some v |}, Return tt).

Declare Scope method_scope.
Delimit Scope method_scope with method.
Notation "x <- m ;; k" := (bind m (fun x => k))
  (at level 61, m at next level, right associativity) : method_scope.
Notation "m ;; k" := (bind m (fun _ => k))
  (at level 61, right associativity) : method_scope.

(** Unpacking a sequence into a fixed number of names: ValueError when the
    lengths differ. *)
Definition unpack4 {A : Type} (l : list A) : res (A * A * A * A) :=
  match l with
  | [a; b; c; d] => Return (a, b, c, d)
  | _ => Raise ValueError
  end.

Definition unpack2 {A : Type} (l : list A) : res (A * A) :=
  match l with
  | [a; b] => Return (a, b)
  | _ => Raise ValueError
  end.

(** ** [Boone.getSigmaP] *)

(** A range argument: [None] or a pair of pressures. *)
Definition range : Type := option (float64 * float64).

(** The type of [Data.findStressIdx(stress2find, cleanedData)], whose code
    is not part of this module: it answers an index or [None]. *)
Definition lookup : Type := Data -> float64 -> bool -> option Z.

(** Lines 71-78: the slice bounds of the third-order polynomial fit. *)
Definition idxTOP (findStressIdx : lookup) (d : Data) (range2fitTOP : range)
  : option Z * option Z :=
  match range2fitTOP with
  | None =>
      let n := Z.of_nat (length (cleaned d)) in
      (Some (np.floor_third n), Some (np.ceil_two_thirds n))
  | Some (r0, r1) =>
      (findStressIdx d r0 true, findStressIdx d r1 true)
  end.

(** Lines 80-87: the slice bounds of the fit of the NCL. *)
Definition idxNCL (findStressIdx : lookup) (d : Data) (range2fitNCL : range)
  : option Z * option Z :=
  match range2fitNCL with
  | None => (Some (-3)%Z, None)
  | Some (r0, r1) =>
      (findStressIdx d r0 true,
       if (r1 <? series_max (col_stress (cleaned d)))%f64
       then findStressIdx d r1 true else None)
  end.

(** The local variables of [getSigmaP] when the drawing starts (line 120);
    the figure is drawn from them. *)
Record Locals : Type := {
  sigmaTOP : list float64;
  eTOP : list float64;
  p1_0 : float64;
  p1_1 : float64;
  p1_2 : float64;
  p1_3 : float64;
  r2TOP : float64;
  xFitTOP : list float64;
  yFitTOP : list float64;
  eSigmaV : float64;
  sigmaNCL : list float64;
  eNCL : list float64;
  p2_0 : float64;
  p2_1 : float64;
  r2NCL : float64;
  xFitNCL : list float64;
  yFitNCL : list float64;
  eCr : float64;
  xCrParallel : list float64;
  yCrParallel : list float64;
  eSigmaP : float64
}.

Local Open Scope method_scope.

(** Lines 71-118, the numerical part of the method: the two fits, the
    reference line and the intersection, which is assigned to
    [self.sigmaP]. *)
Definition getSigmaP (findStressIdx : lookup)
  (range2fitTOP range2fitNCL : range) : method Locals :=
  d <- get_data ;;
  let '(idxInitTOP, idxEndTOP) := idxTOP findStressIdx d range2fitTOP in
  let '(idxInitNCL, idxEndNCL) := idxNCL findStressIdx d range2fitNCL in
  (* fitting a third order polynomial to data without unloads *)
  let sigmaTOP := slice (col_stress (cleaned d)) idxInitTOP idxEndTOP in
  let sigmaTOPlog := map np.log10 sigmaTOP in
  let eTOP := slice (col_e (cleaned d)) idxInitTOP idxEndTOP in
  c1 <- call (polyfit sigmaTOPlog eTOP 3) ;;
  p1 <- call (unpack4 c1) ;;
  let '(p1_0, p1_1, p1_2, p1_3) := p1 in
  r2TOP <- call (r2_score eTOP
             (map (fun x => polyval x [p1_0; p1_1; p1_2; p1_3]) sigmaTOPlog)) ;;
  top0 <- call (iloc sigmaTOP 0) ;;
  top1 <- call (iloc sigmaTOP (-1)) ;;
  let xFitTOP := np.linspace top0 top1 500 in
  let yFitTOP :=
    map (fun x => polyval (np.log10 x) [p1_0; p1_1; p1_2; p1_3]) xFitTOP in
  (* void ratio at sigma V *)
  let eSigmaV := polyval (np.log10 (sigmaV d)) [p1_0; p1_1; p1_2; p1_3] in
  (* linear regression of points on the normally consolidated line *)
  let sigmaNCL := slice (col_stress (cleaned d)) idxInitNCL idxEndNCL in
  let sigmaNCLlog := map np.log10 sigmaNCL in
  let eNCL := slice (col_e (cleaned d)) idxInitNCL idxEndNCL in
  c2 <- call (polyfit sigmaNCLlog eNCL 1) ;;
  p2 <- call (unpack2 c2) ;;
  let '(p2_0, p2_1) := p2 in
  r2NCL <- call (r2_score eNCL
             (map (fun x => polyval x [p2_0; p2_1]) sigmaNCLlog)) ;;
  ncl1 <- call (iloc sigmaNCL (-1)) ;;
  let xFitNCL := np.linspace (sigmaV d) ncl1 500 in
  let yFitNCL := map (fun x => polyval (np.log10 x) [p2_0; p2_1]) xFitNCL in
  (* line parallel to Cr at sigmaV and eSigmaV *)
  let eCr := (eSigmaV - (- idxCr d * np.log10 (sigmaV d)))%f64 in
  s1 <- call (iloc (col_stress (cleaned d)) 1) ;;
  s2 <- call (iloc (col_stress (cleaned d)) (-1)) ;;
  let xCrParallel := np.linspace s1 s2 50 in
  let yCrParallel :=
    map (fun x => polyval (np.log10 x) [eCr; (- idxCr d)%f64]) xCrParallel in
  (* intersection of the line parallel to Cr with the NCL *)
  let sP := pow10 ((p2_0 - eCr) / (- idxCr d - p2_1))%f64 in
  set_sigmaP sP ;;
  let eSigmaP := polyval (np.log10 sP) [p2_0; p2_1] in
  ret {| sigmaTOP := sigmaTOP; eTOP := eTOP;
         p1_0 := p1_0; p1_1 := p1_1; p1_2 := p1_2; p1_3 := p1_3;
         r2TOP := r2TOP; xFitTOP := xFitTOP; yFitTOP := yFitTOP;
         eSigmaV := eSigmaV;
         sigmaNCL := sigmaNCL; eNCL := eNCL; p2_0 := p2_0; p2_1 := p2_1;
         r2NCL := r2NCL; xFitNCL := xFitNCL; yFitNCL := yFitNCL;
         eCr := eCr; xCrParallel := xCrParallel; yCrParallel := yCrParallel;
         eSigmaP := eSigmaP |}.

(** The drawing of the figure (lines 120-149), which is matplotlib's: it
    reads the object and the local variables, it assigns nothing to the
    object, and it can fail, with the exception it answers. *)
Definition plotting : Type := Boone -> Locals -> option exn.

(** The whole method: the numerical part, then the figure. *)
Definition getSigmaP_fig (plot : plotting) (findStressIdx : lookup)
  (range2fitTOP range2fitNCL : range) : method Locals :=
  L <- getSigmaP findStressIdx range2fitTOP range2fitNCL ;;
  (fun self => match plot self L with
               | None => (self, Return L)
               | Some e => (self, Raise e)
               end).

Local Close Scope method_scope.

(** The rows selected for the two fits. *)
Definition windowTOP (findStressIdx : lookup) (d : Data) (range2fitTOP : range)
  : DataFrame :=
  slice (cleaned d) (fst (idxTOP findStressIdx d range2fitTOP))
                    (snd (idxTOP findStressIdx d range2fitTOP)).

Definition windowNCL (findStressIdx : lookup) (d : Data) (range2fitNCL : range)
  : DataFrame :=
  slice (cleaned d) (fst (idxNCL findStressIdx d range2fitNCL))
                    (snd (idxNCL findStressIdx d range2fitNCL)).

(** A stress a logarithm can be taken of: finite and positive. *)
Definition pos_stress (x : float64) : Prop :=
  match x with Fin a => 0 < a | _ => False end.

(** A stress that is zero or negative. *)
Definition nonpos_stress (x : float64) : Prop :=
  match x with Fin a => a <= 0 | _ => False end.

Definition finite (x : float64) : Prop :=
  match x with Fin _ => True | _ => False end.

(** The rows of a window all have a positive stress and a finite void
    ratio. *)
Definition loggable (w : DataFrame) : Prop :=
  Forall (fun row => pos_stress (fst row) /\ finite (snd row)) w.

(** The logarithms of the stresses of a window, as passed to [polyfit]. *)
Definition logs (w : DataFrame) : list float64 := map np.log10 (col_stress w).

(** A non-empty window with a logarithm that is not finite: [polyfit]
    fails on it. *)
Definition fit_fails (w : DataFrame) : Prop :=
  w <> [] /\ finite_all (logs w) = None.

(** A non-empty window with finite logarithms and a void ratio that is not
    finite: [polyfit] returns on it, and [r2_score] rejects it. *)
Definition score_fails (w : DataFrame) : Prop :=
  w <> [] /\ (exists xs, finite_all (logs w) = Some xs) /\
  finite_all (col_e w) = None.

(** A non-empty window whose logarithms and void ratios are all finite. *)
Definition fit_succeeds (w : DataFrame) : Prop :=
  w <> [] /\ (exists xs, finite_all (logs w) = Some xs) /\
  (exists ys, finite_all (col_e w) = Some ys).

(** ** The index lookup of the data object *)

(** The scan behind [find_index]: the position of the entry nearest to
    [target], the earliest one on a tie. *)
Fixpoint nearest_from (target : float64) (s : list float64) (i best : Z)
  (dist : float64) : Z :=
  match s with
  | [] => best
  | x :: s' =>
      let dx := fabs (x - target)%f64 in
      if (dx <? dist)%f64 then nearest_from target s' (i + 1)%Z i dx
      else nearest_from target s' (i + 1)%Z best dist
  end.

(** Modelled from the spec: [Data.findStressIdx] lives in the data module,
    which is not among the sources.  The specification describes it as the
    "lookup of the dataset index nearest a given stress value within either
    the raw or cleaned series"; on a tie the first index is taken, and an
    empty series has no index. *)
Definition find_index : lookup :=
  fun d stress2find cleanedData =>
    match col_stress (if cleanedData then cleaned d else raw d) with
    | [] => None
    | x :: s => Some (nearest_from stress2find s 1 0 (fabs (x - stress2find)%f64))
    end.

(** ** Example data *)

Definition rows (stress e : list R) : DataFrame :=
  combine (map Fin stress) (map Fin e).

(** Seven load steps, doubling from 25 kPa to 1600 kPa. *)
Definition oedometer7 : Data :=
  let df := rows [25; 50; 100; 200; 400; 800; 1600]
                 [1; 49/50; 19/20; 9/10; 4/5; 7/10; 3/5] in
  {| raw := df; cleaned := df; sigmaV := Fin 150; idxCr := Fin (1/50) |}.

(** The same test with its first reading, taken at zero stress. *)
Definition oedometer8 : Data :=
  let df := rows [0; 25; 50; 100; 200; 400; 800; 1600]
                 [51/50; 1; 49/50; 19/20; 9/10; 4/5; 7/10; 3/5] in
  {| raw := df; cleaned := df; sigmaV := Fin 150; idxCr := Fin (1/50) |}.

(** The slope of the line that [polyfit] fits on a window. *)
Definition fitted_slope (w : DataFrame) : float64 :=
  match polyfit (logs w) (col_e w) 1 with
  | Return [_; b] => b
  | _ => NaN
  end.

(** Four load steps a decade apart, whose last three lie on the line
    [e = 1 - x/5] in log-stress space, with the recompression index set to
    minus the slope that [polyfit] answers on these three rows (1/5, up to
    the rounding of the fit). *)
Definition decades4_parallel : Data :=
  let df := rows [1; 10; 100; 1000] [9/10; 4/5; 3/5; 2/5] in
  {| raw := df; cleaned := df; sigmaV := Fin 5;
     idxCr := neg (fitted_slope (slice df (Some (-3)%Z) None)) |}.


(** A drawing that succeeds, and one that fails. *)
Definition plot_ok : plotting := fun _ _ => None.

Definition plot_fails : plotting := fun _ _ => Some RuntimeError.

(** * Properties *)

(** ** Arithmetic of [float64] *)

Lemma Rltb_true (a b : R) : a < b -> Rltb a b = true.
Proof. intros H. unfold Rltb. destruct (Rlt_dec a b); [reflexivity | contradiction]. Qed.

Lemma Rltb_false (a b : R) : b <= a -> Rltb a b = false.
Proof. intros H. unfold Rltb. destruct (Rlt_dec a b); [lra | reflexivity]. Qed.

Lemma Reqb_true (a b : R) : a = b -> Reqb a b = true.
Proof. intros H. unfold Reqb. destruct (Req_dec_T a b); [reflexivity | contradiction]. Qed.

Lemma Reqb_false (a b : R) : a <> b -> Reqb a b = false.
Proof. intros H. unfold Reqb. destruct (Req_dec_T a b); [contradiction | reflexivity]. Qed.

Ltac real_cases :=
  unfold scale_inf, Rltb, Reqb in *;
  repeat match goal with
         | |- context [Rlt_dec ?a ?b] => destruct (Rlt_dec a b)
         | |- context [Req_dec_T ?a ?b] => destruct (Req_dec_T a b)
         | H : context [Rlt_dec ?a ?b] |- _ => destruct (Rlt_dec a b)
         | H : context [Req_dec_T ?a ?b] |- _ => destruct (Req_dec_T a b)
         end.

Lemma neg_involutive (x : float64) : (- - x)%f64 = x.
Proof. destruct x; simpl; try reflexivity. f_equal. lra. Qed.

Lemma mul_neg_l (x y : float64) : (- x * y)%f64 = (- (x * y))%f64.
Proof.
  destruct x, y; simpl; try reflexivity; real_cases; simpl;
    try reflexivity; try lra; f_equal; lra.
Qed.

(** Subtracting a product with a negated factor is adding the product. *)
Lemma sub_neg_mul (x b c : float64) : (x - (- b * c))%f64 = (x + b * c)%f64.
Proof. unfold sub. now rewrite mul_neg_l, neg_involutive. Qed.

(** What [10 ** q] can be: never negative, never [-inf]. *)
Lemma pow10_cases (q : float64) :
  pow10 q = PInf \/ pow10 q = NaN \/ exists r, pow10 q = Fin r /\ 0 <= r.
Proof.
  destruct q as [a | | |]; simpl; auto.
  - destruct (Rltb DBL_MAX (Rpower 10 a)); [now left |].
    right; right. destruct (Rltb (Rpower 10 a) DBL_TINY).
    + exists 0. split; [reflexivity | lra].
    + exists (Rpower 10 a). split; [reflexivity |].
      left. unfold Rpower. apply exp_pos.
  - right; right. exists 0. split; [reflexivity | lra].
Qed.

(** The power of a finite exponent is not [nan]. *)
Lemma pow10_finite_exponent (a : R) : pow10 (Fin a) <> NaN.
Proof.
  simpl. destruct (Rltb DBL_MAX (Rpower 10 a)); [discriminate |].
  destruct (Rltb (Rpower 10 a) DBL_TINY); discriminate.
Qed.

Lemma div_by_zero (x : float64) :
  (x / Fin 0)%f64 = PInf \/ (x / Fin 0)%f64 = NInf \/ (x / Fin 0)%f64 = NaN.
Proof. destruct x; simpl; real_cases; simpl; auto; lra. Qed.

(** ** Lengths and slices *)

Lemma floor_third_bounds (n : Z) :
  (0 <= n -> 0 <= np.floor_third n <= np.ceil_two_thirds n /\
             np.ceil_two_thirds n <= n)%Z.
Proof.
  unfold np.floor_third, np.ceil_two_thirds.
  Z.to_euclidean_division_equations. lia.
Qed.

(** [ceil_two_thirds n] is the least integer that is at least [2n/3]. *)
Lemma ceil_two_thirds_spec (n : Z) :
  (2 * n <= 3 * np.ceil_two_thirds n < 2 * n + 3)%Z.
Proof. unfold np.ceil_two_thirds. Z.to_euclidean_division_equations. lia. Qed.

(** [floor_third n] is the greatest integer that is at most [n/3]. *)
Lemma floor_third_spec (n : Z) :
  (3 * np.floor_third n <= n < 3 * np.floor_third n + 3)%Z.
Proof. unfold np.floor_third. Z.to_euclidean_division_equations. lia. Qed.

Lemma slice_map {A B : Type} (f : A -> B) (s : list A) (i j : option Z) :
  slice (map f s) i j = map f (slice s i j).
Proof.
  unfold slice. rewrite length_map, skipn_map, firstn_map. reflexivity.
Qed.

(** A slice between two in-range bounds. *)
Lemma slice_between {A : Type} (s : list A) (i j : Z) :
  (0 <= i <= j)%Z -> (j <= Z.of_nat (length s))%Z ->
  slice s (Some i) (Some j) =
  firstn (Z.to_nat j - Z.to_nat i) (skipn (Z.to_nat i) s).
Proof.
  intros Hij Hj. unfold slice, slice_bound.
  destruct (Z.ltb_spec i 0); [lia |]. destruct (Z.ltb_spec j 0); [lia |].
  rewrite !Z.min_l by lia. f_equal. lia.
Qed.

(** The slice [s[-3:]] of a series of at least three entries. *)
Lemma slice_last3 {A : Type} (s : list A) :
  (3 <= length s)%nat ->
  slice s (Some (-3)%Z) None = skipn (length s - 3) s.
Proof.
  intros H. unfold slice, slice_bound.
  change (-3 <? 0)%Z with true. cbv iota.
  rewrite Z.max_r by lia.
  replace (Z.to_nat (-3 + Z.of_nat (length s))) with (length s - 3)%nat by lia.
  apply firstn_all2. rewrite length_skipn. lia.
Qed.

(** A slice with no upper bound runs to the end of the series. *)
Lemma slice_to_end {A : Type} (s : list A) (i : option Z) :
  exists k, slice s i None = skipn k s.
Proof.
  unfold slice.
  set (lo := match i with None => 0%Z | Some i0 => slice_bound _ i0 end).
  exists (Z.to_nat lo).
  assert (0 <= lo <= Z.of_nat (length s))%Z.
  { subst lo. destruct i; [| lia]. unfold slice_bound.
    destruct (Z.ltb_spec z 0); lia. }
  apply firstn_all2. rewrite length_skipn. lia.
Qed.

(** A slice from an in-range index, with no upper bound. *)
Lemma slice_from {A : Type} (s : list A) (k : nat) :
  (k <= length s)%nat -> slice s (Some (Z.of_nat k)) None = skipn k s.
Proof.
  intros Hk. unfold slice, slice_bound.
  destruct (Z.ltb_spec (Z.of_nat k) 0); [lia |].
  rewrite Z.min_l by lia. rewrite Nat2Z.id.
  apply firstn_all2. rewrite length_skipn. lia.
Qed.

(** ** The library calls *)

Lemma finite_all_Some (l : list float64) (rs : list R) :
  finite_all l = Some rs -> l = map Fin rs.
Proof.
  revert rs. induction l as [| x l IH]; intros rs H; simpl in H.
  - injection H as <-. reflexivity.
  - destruct x; try discriminate.
    destruct (finite_all l) as [rs' |]; [| discriminate].
    injection H as <-. simpl. f_equal. now apply IH.
Qed.

Lemma finite_all_Forall (l : list float64) :
  Forall finite l -> exists rs, finite_all l = Some rs.
Proof.
  induction 1 as [| x l Hx _ [rs IH]]; simpl.
  - now exists [].
  - destruct x; simpl in Hx; try contradiction.
    rewrite IH. now eexists.
Qed.

Lemma finite_all_None (l : list float64) (x : float64) :
  In x l -> ~ finite x -> finite_all l = None.
Proof.
  induction l as [| y l IH]; intros Hin Hx; [contradiction |].
  destruct Hin as [-> | Hin]; simpl.
  - destruct x; simpl in Hx; tauto.
  - rewrite (IH Hin Hx). now destruct y.
Qed.

Lemma lstsq_length (deg : nat) (xs ys : list R) :
  length (lstsq deg xs ys) = S deg.
Proof. unfold lstsq. now rewrite length_map, length_seq. Qed.

Lemma polyfit_finite (x y : list float64) (xs ys : list R) (deg : nat) :
  x <> [] -> length x = length y ->
  finite_all x = Some xs -> finite_all y = Some ys ->
  polyfit x y deg = Return (map Fin (lstsq deg xs ys)).
Proof.
  intros Hx Hlen Hxs Hys. unfold polyfit.
  destruct x; [contradiction |].
  rewrite Hlen, Nat.eqb_refl. simpl negb. cbv iota.
  now rewrite Hxs, Hys.
Qed.

Lemma polyfit_nonfinite (x y : list float64) (deg : nat) :
  x <> [] -> length x = length y -> finite_all x = None ->
  polyfit x y deg = Raise LinAlgError.
Proof.
  intros Hx Hlen H. unfold polyfit.
  destruct x; [contradiction |].
  rewrite Hlen, Nat.eqb_refl. simpl negb. cbv iota.
  now rewrite H.
Qed.

Lemma polyfit_nonfinite_y (x y : list float64) (xs : list R) (deg : nat) :
  x <> [] -> length x = length y ->
  finite_all x = Some xs -> finite_all y = None ->
  polyfit x y deg = Return (repeat NaN (S deg)).
Proof.
  intros Hx Hlen Hxs Hys. unfold polyfit.
  destruct x; [contradiction |].
  rewrite Hlen, Nat.eqb_refl. simpl negb. cbv iota.
  now rewrite Hxs, Hys.
Qed.

(** The four outcomes of [polyfit] on columns of one length. *)
Lemma polyfit_cases (x y : list float64) (deg : nat) :
  length x = length y ->
  (x = [] /\ polyfit x y deg = Raise TypeError) \/
  (x <> [] /\ finite_all x = None /\ polyfit x y deg = Raise LinAlgError) \/
  (x <> [] /\ finite_all y = None /\
   polyfit x y deg = Return (repeat NaN (S deg))) \/
  (exists xs ys, x <> [] /\ finite_all x = Some xs /\ finite_all y = Some ys /\
                 polyfit x y deg = Return (map Fin (lstsq deg xs ys))).
Proof.
  intros Hlen. destruct x as [| x0 x].
  - left. now split.
  - right. assert (Hne : x0 :: x <> []) by discriminate.
    destruct (finite_all (x0 :: x)) as [xs |] eqn:Hxs.
    + destruct (finite_all y) as [ys |] eqn:Hys.
      * right; right. exists xs, ys. repeat split; auto.
        now apply polyfit_finite.
      * right; left. repeat split; auto. now apply polyfit_nonfinite_y with xs.
    + left. repeat split; auto. now apply polyfit_nonfinite.
Qed.

Lemma polyval_fold_finite (x : R) (cs : list R) (a : R) :
  exists r, fold_left (fun acc ci => ci + acc * Fin x)%f64 (map Fin cs) (Fin a)
            = Fin r.
Proof.
  revert a. induction cs as [| c cs IH]; intros a; simpl.
  - now exists a.
  - apply IH.
Qed.

(** A polynomial with finite coefficients has a finite value at a finite
    point. *)
Lemma polyval_finite (x : R) (c : list R) :
  c <> [] -> exists r, polyval (Fin x) (map Fin c) = Fin r.
Proof.
  intros Hc. unfold polyval. rewrite <- map_rev.
  destruct (rev c) as [| ck cs] eqn:Hrev.
  - apply (f_equal (@rev R)) in Hrev. rewrite rev_involutive in Hrev.
    now subst c.
  - simpl. apply polyval_fold_finite.
Qed.

Lemma r2_score_returns (y_true y_pred : list float64) (yt yp : list R) :
  y_true <> [] -> length y_true = length y_pred ->
  finite_all y_true = Some yt -> finite_all y_pred = Some yp ->
  exists v, r2_score y_true y_pred = Return v.
Proof.
  intros Hne Hlen Ht Hp. unfold r2_score.
  rewrite Hlen, Nat.eqb_refl. simpl negb. cbv iota. rewrite Ht, Hp.
  destruct yt as [| y0 [| y1 yt]].
  - apply finite_all_Some in Ht. now subst y_true.
  - now eexists.
  - destruct (negb (Reqb _ 0)); [now eexists |].
    destruct (negb (Reqb _ 0)); now eexists.
Qed.

(** A void ratio that is not finite is rejected by [r2_score], whatever the
    prediction. *)
Lemma r2_score_nonfinite (y_true y_pred : list float64) :
  finite_all y_true = None -> r2_score y_true y_pred = Raise ValueError.
Proof.
  intros H. unfold r2_score. rewrite H.
  now destruct (negb (Nat.eqb (length y_true) (length y_pred))).
Qed.

Lemma iloc_first {A : Type} (a : A) (s : list A) : iloc (a :: s) 0 = Return a.
Proof.
  unfold iloc. simpl (0 <? 0)%Z. cbv iota.
  replace ((0 <=? 0)%Z && (0 <? Z.of_nat (length (a :: s)))%Z) with true.
  - reflexivity.
  - symmetry. apply andb_true_intro. split; [reflexivity |].
    apply Z.ltb_lt. simpl length. lia.
Qed.

Lemma iloc_last {A : Type} (s : list A) (d : A) :
  s <> [] -> iloc s (-1) = Return (last s d).
Proof.
  intros Hs. unfold iloc. change (-1 <? 0)%Z with true. cbv iota.
  assert (Hlen : (0 < length s)%nat) by (destruct s; [contradiction | simpl; lia]).
  replace ((0 <=? -1 + Z.of_nat (length s))%Z &&
           (-1 + Z.of_nat (length s) <? Z.of_nat (length s))%Z) with true.
  - replace (Z.to_nat (-1 + Z.of_nat (length s))) with (length s - 1)%nat by lia.
    destruct (@exists_last _ s Hs) as [s' [a ->]].
    rewrite length_app, last_last. simpl length.
    rewrite nth_error_app2 by lia.
    replace (length s' + 1 - 1 - length s')%nat with 0%nat by lia.
    reflexivity.
  - symmetry. apply andb_true_intro. split; [apply Z.leb_le | apply Z.ltb_lt]; lia.
Qed.

Lemma iloc_second {A : Type} (a b : A) (s : list A) :
  iloc (a :: b :: s) 1 = Return b.
Proof.
  unfold iloc. change (1 <? 0)%Z with false. cbv iota.
  replace ((0 <=? 1)%Z && (1 <? Z.of_nat (length (a :: b :: s)))%Z) with true.
  - reflexivity.
  - symmetry. apply andb_true_intro. split; [reflexivity |].
    apply Z.ltb_lt. simpl length. lia.
Qed.


Lemma log10_pos_stress (x : float64) : pos_stress x -> finite (np.log10 x).
Proof.
  destruct x; simpl; try contradiction. intros H.
  now rewrite (Rltb_true H).
Qed.

Lemma log10_nonpos_stress (x : float64) :
  nonpos_stress x -> np.log10 x = NInf \/ np.log10 x = NaN.
Proof.
  destruct x; simpl; try contradiction. intros H.
  rewrite (Rltb_false H). destruct (Req_dec_T r 0) as [E | E].
  - left. now rewrite (Reqb_true E).
  - right. now rewrite (Reqb_false E).
Qed.

Lemma loggable_finite (w : DataFrame) :
  loggable w ->
  exists xs ys, finite_all (map np.log10 (col_stress w)) = Some xs /\
                finite_all (col_e w) = Some ys.
Proof.
  intros H.
  destruct (@finite_all_Forall (map np.log10 (col_stress w))) as [xs Hxs].
  { unfold col_stress. rewrite !Forall_map.
    eapply Forall_impl; [| exact H]. intros row [Hp _].
    now apply log10_pos_stress. }
  destruct (@finite_all_Forall (col_e w)) as [ys Hys].
  { unfold col_e. rewrite Forall_map.
    eapply Forall_impl; [| exact H]. now intros row [_ Hf]. }
  now exists xs, ys.
Qed.

Lemma columns_length (w : DataFrame) (g : float64 -> float64) :
  length (map g (col_stress w)) = length (col_e w).
Proof. unfold col_stress, col_e. now rewrite !length_map. Qed.

Lemma predictions_finite (c xs : list R) :
  c <> [] ->
  exists ps, finite_all (map (fun x => polyval x (map Fin c)) (map Fin xs))
             = Some ps.
Proof.
  intros Hc. apply finite_all_Forall. rewrite !Forall_map.
  apply Forall_forall. intros x _.
  destruct (polyval_finite x Hc) as [r ->]. exact I.
Qed.

(** After a fit on finite columns the score of the fit is computed without an error. *)
Lemma r2_after_fit (x y : list float64) (xs ys c : list R) :
  x <> [] -> length x = length y -> c <> [] ->
  finite_all x = Some xs -> finite_all y = Some ys ->
  exists v, r2_score y (map (fun t => polyval t (map Fin c)) x) = Return v.
Proof.
  intros Hx Hlen Hc Hxs Hys.
  destruct (predictions_finite xs Hc) as [ps Hps].
  rewrite (finite_all_Some _ Hxs) in *.
  eapply r2_score_returns; eauto.
  - intros ->. destruct xs; [now apply Hx | discriminate].
  - now rewrite length_map, <- Hlen.
Qed.

(** ** The body of [getSigmaP] *)

Arguments np.linspace : simpl never.

(** One step through the body of [getSigmaP] along the returning path. *)
Ltac step H :=
  match type of H with
  | context [match polyfit ?x ?y ?d with _ => _ end] =>
      let c := fresh "c" in let Hp := fresh "Hfit" in
      destruct (polyfit x y d) as [c | ?] eqn:Hp; [| discriminate H]
  | context [match unpack4 ?c with _ => _ end] =>
      let Hu := fresh "Hun" in
      destruct (unpack4 c) as [[[[? ?] ?] ?] | ?] eqn:Hu; [| discriminate H]
  | context [match unpack2 ?c with _ => _ end] =>
      let Hu := fresh "Hun" in
      destruct (unpack2 c) as [[? ?] | ?] eqn:Hu; [| discriminate H]
  | context [match r2_score ?x ?y with _ => _ end] =>
      let Hr := fresh "Hr2" in
      destruct (r2_score x y) as [? | ?] eqn:Hr; [| discriminate H]
  | context [match iloc ?s ?i with _ => _ end] =>
      let Hi := fresh "Hiloc" in
      destruct (iloc s i) as [? | ?] eqn:Hi; [| discriminate H]
  end.

Lemma unpack4_inv {A : Type} (l : list A) (a b c d : A) :
  unpack4 l = Return (a, b, c, d) -> l = [a; b; c; d].
Proof.
  destruct l as [| ? [| ? [| ? [| ? [| ? ?]]]]]; simpl; intros H;
    try discriminate. now injection H as -> -> -> ->.
Qed.

Lemma unpack2_inv {A : Type} (l : list A) (a b : A) :
  unpack2 l = Return (a, b) -> l = [a; b].
Proof.
  destruct l as [| ? [| ? [| ? ?]]]; simpl; intros H;
    try discriminate. now injection H as -> ->.
Qed.

Lemma Return_inj {A : Type} (a b : A) : Return a = Return b -> a = b.
Proof. intros H. now injection H. Qed.

(** What a returning call has computed. *)
Lemma getSigmaP_inv (f : lookup) (rt rn : range) (self self' : Boone) (L : Locals) :
  getSigmaP f rt rn self = (self', Return L) ->
  let d := data self in
  let wT := windowTOP f d rt in
  let wN := windowNCL f d rn in
  let sP := pow10 ((p2_0 L - eCr L) / (- idxCr d - p2_1 L))%f64 in
  sigmaTOP L = col_stress wT /\ eTOP L = col_e wT /\
  polyfit (map np.log10 (col_stress wT)) (col_e wT) 3
    = Return [p1_0 L; p1_1 L; p1_2 L; p1_3 L] /\
  eSigmaV L = polyval (np.log10 (sigmaV d)) [p1_0 L; p1_1 L; p1_2 L; p1_3 L] /\
  sigmaNCL L = col_stress wN /\ eNCL L = col_e wN /\
  polyfit (map np.log10 (col_stress wN)) (col_e wN) 1
    = Return [p2_0 L; p2_1 L] /\
  eCr L = (eSigmaV L - (- idxCr d * np.log10 (sigmaV d)))%f64 /\
  self' = {| data := d; sigmaP := Some sP |} /\
  eSigmaP L = polyval (np.log10 sP) [p2_0 L; p2_1 L].
Proof.
  intros H d wT wN. subst d wT wN. unfold windowTOP, windowNCL.
  unfold getSigmaP, bind, get_data, call, set_sigmaP, ret in H.
  destruct (idxTOP f (data self) rt) as [iT jT].
  destruct (idxNCL f (data self) rn) as [iN jN].
  unfold col_stress, col_e in *. rewrite !slice_map in H.
  cbn [fst snd].
  repeat step H.
  apply unpack4_inv in Hun. apply unpack2_inv in Hun0. subst.
  pose proof (f_equal fst H) as Hs. pose proof (f_equal snd H) as HL.
  cbn [fst snd] in Hs, HL. apply Return_inj in HL. subst self' L.
  cbn [sigmaTOP eTOP p1_0 p1_1 p1_2 p1_3 eSigmaV sigmaNCL eNCL p2_0 p2_1
       eCr eSigmaP data].
  repeat split; assumption.
Qed.

Lemma window_cases (w : DataFrame) :
  w = [] \/ fit_fails w \/ score_fails w \/ fit_succeeds w.
Proof.
  destruct w as [| row w]; [now left | right].
  assert (Hne : row :: w <> []) by discriminate.
  unfold fit_fails, score_fails, fit_succeeds.
  destruct (finite_all (logs (row :: w))) as [xs |];
    destruct (finite_all (col_e (row :: w))) as [ys |]; eauto 8.
Qed.

Lemma logs_nonempty (w : DataFrame) : w <> [] -> logs w <> [].
Proof. destruct w; [contradiction | discriminate]. Qed.

Lemma fit_empty (deg : nat) : polyfit (logs []) (col_e []) deg = Raise TypeError.
Proof. reflexivity. Qed.

Lemma fit_fails_raises (w : DataFrame) (deg : nat) :
  fit_fails w -> polyfit (logs w) (col_e w) deg = Raise LinAlgError.
Proof.
  intros [Hw H]. apply polyfit_nonfinite; auto.
  - now apply logs_nonempty.
  - apply columns_length.
Qed.

Lemma score_fails_returns (w : DataFrame) (deg : nat) :
  score_fails w ->
  polyfit (logs w) (col_e w) deg = Return (repeat NaN (S deg)).
Proof.
  intros (Hw & [xs Hxs] & Hys). apply polyfit_nonfinite_y with xs; auto.
  - now apply logs_nonempty.
  - apply columns_length.
Qed.

Lemma fit_succeeds_returns (w : DataFrame) (deg : nat) :
  fit_succeeds w ->
  exists c, length c = S deg /\
    polyfit (logs w) (col_e w) deg = Return (map Fin c) /\
    exists v, r2_score (col_e w) (map (fun t => polyval t (map Fin c)) (logs w))
              = Return v.
Proof.
  intros (Hw & [xs Hxs] & [ys Hys]).
  exists (lstsq deg xs ys). split; [apply lstsq_length |]. split.
  - apply polyfit_finite; auto; [now apply logs_nonempty | apply columns_length].
  - eapply r2_after_fit; eauto.
    + now apply logs_nonempty.
    + apply columns_length.
    + intros E. apply (f_equal (@length R)) in E.
      rewrite lstsq_length in E. discriminate.
Qed.

Lemma loggable_fit_succeeds (w : DataFrame) :
  w <> [] -> loggable w -> fit_succeeds w.
Proof.
  intros Hw Hlog. destruct (loggable_finite Hlog) as (xs & ys & Hxs & Hys).
  split; [assumption |]. split; eauto.
Qed.

Lemma col_stress_nonempty (w : DataFrame) : w <> [] -> col_stress w <> [].
Proof. destruct w; [contradiction | discriminate]. Qed.

Lemma iloc_nonempty {A : Type} (s : list A) :
  s <> [] -> exists a b, iloc s 0 = Return a /\ iloc s (-1) = Return b.
Proof.
  intros Hs. destruct s as [| a s]; [contradiction |].
  exists a, (last (a :: s) a). split; [apply iloc_first | now apply iloc_last].
Qed.

Lemma iloc_short {A : Type} (s : list A) :
  (length s < 2)%nat -> iloc s 1 = Raise IndexError.
Proof.
  intros H. unfold iloc. change (1 <? 0)%Z with false. cbv iota.
  replace (1 <? Z.of_nat (length s))%Z with false; [reflexivity |].
  symmetry. apply Z.ltb_ge. lia.
Qed.

(** The eight ways a call of [getSigmaP] can end. *)
Lemma getSigmaP_cases (f : lookup) (rt rn : range) (self : Boone) :
  let d := data self in
  let wT := windowTOP f d rt in
  let wN := windowNCL f d rn in
  let out := getSigmaP f rt rn self in
  (wT = [] /\ out = (self, Raise TypeError)) \/
  (fit_fails wT /\ out = (self, Raise LinAlgError)) \/
  (score_fails wT /\ out = (self, Raise ValueError)) \/
  (fit_succeeds wT /\ wN = [] /\ out = (self, Raise TypeError)) \/
  (fit_succeeds wT /\ fit_fails wN /\ out = (self, Raise LinAlgError)) \/
  (fit_succeeds wT /\ score_fails wN /\ out = (self, Raise ValueError)) \/
  (fit_succeeds wT /\ fit_succeeds wN /\ (length (cleaned d) < 2)%nat /\
   out = (self, Raise IndexError)) \/
  (fit_succeeds wT /\ fit_succeeds wN /\ (2 <= length (cleaned d))%nat /\
   exists self' L, out = (self', Return L)).
Proof.
  intros d wT wN out. subst d wT wN.
  assert (Hout : out = getSigmaP f rt rn self) by reflexivity. clearbody out.
  unfold windowTOP, windowNCL.
  unfold getSigmaP, bind, get_data, call, set_sigmaP, ret in Hout.
  destruct (idxTOP f (data self) rt) as [iT jT].
  destruct (idxNCL f (data self) rn) as [iN jN].
  cbn [fst snd].
  unfold col_stress at 1 2 3 4 5 6 7 8, col_e at 1 2 3 4 in Hout.
  rewrite !slice_map in Hout.
  revert Hout.
  generalize (slice (cleaned (data self)) iT jT) as wT.
  generalize (slice (cleaned (data self)) iN jN) as wN. intros wN wT Hout.
  fold (col_stress wT) (col_e wT) (col_stress wN) (col_e wN) in Hout.
  fold (logs wT) (logs wN) in Hout.
  destruct (window_cases wT) as [HT | [HT | [HT | HT]]].
  { left. rewrite HT in *. rewrite fit_empty in Hout. now split. }
  { right; left. rewrite (fit_fails_raises 3 HT) in Hout. now split. }
  { right; right; left. rewrite (score_fails_returns 3 HT) in Hout.
    cbn [repeat unpack4] in Hout.
    rewrite r2_score_nonfinite in Hout by apply HT. now split. }
  do 3 right.
  destruct (fit_succeeds_returns 3 HT) as (c1 & Hc1 & E1 & r1 & Hr1).
  rewrite E1 in Hout.
  destruct c1 as [| a0 [| a1 [| a2 [| a3 [| ? ?]]]]]; try discriminate.
  cbn [map unpack4] in *. rewrite Hr1 in Hout.
  destruct (iloc_nonempty (col_stress_nonempty (proj1 HT)))
    as (t0 & t1 & Et0 & Et1).
  rewrite Et0, Et1 in Hout.
  destruct (window_cases wN) as [HN | [HN | [HN | HN]]].
  { left. rewrite HN in *. rewrite fit_empty in Hout.
    split; [exact HT | now split]. }
  { right; left. rewrite (fit_fails_raises 1 HN) in Hout.
    split; [exact HT | now split]. }
  { right; right; left. rewrite (score_fails_returns 1 HN) in Hout.
    cbn [repeat unpack2] in Hout.
    rewrite r2_score_nonfinite in Hout by apply HN.
    split; [exact HT | now split]. }
  do 3 right.
  destruct (fit_succeeds_returns 1 HN) as (c2 & Hc2 & E2 & r2 & Hr2).
  rewrite E2 in Hout.
  destruct c2 as [| b0 [| b1 [| ? ?]]]; try discriminate.
  cbn [map unpack2] in *. rewrite Hr2 in Hout.
  destruct (iloc_nonempty (col_stress_nonempty (proj1 HN)))
    as (_ & n1 & _ & En1).
  rewrite En1 in Hout.
  destruct (le_lt_dec 2 (length (cleaned (data self)))) as [Hlen | Hlen].
  - right. split; [exact HT |]. split; [exact HN |]. split; [exact Hlen |].
    destruct (cleaned (data self)) as [| x0 [| x1 df]] eqn:Hdf;
      try (simpl in Hlen; lia).
    unfold col_stress at 1 2 in Hout. cbn [map] in Hout.
    rewrite iloc_second, (@iloc_last _ _ NaN) in Hout by discriminate.
    rewrite Hout. now do 2 eexists.
  - left. split; [exact HT |]. split; [exact HN |]. split; [exact Hlen |].
    rewrite iloc_short in Hout; [assumption |].
    unfold col_stress. now rewrite length_map.
Qed.

(** The windows of the four kinds exclude one another. *)
Lemma fit_succeeds_not_fails (w : DataFrame) :
  fit_succeeds w -> ~ fit_fails w.
Proof.
  intros (_ & [xs Hxs] & [ys Hys]) (_ & H); congruence.
Qed.

Lemma fit_succeeds_not_score_fails (w : DataFrame) :
  fit_succeeds w -> ~ score_fails w.
Proof.
  intros (_ & [xs Hxs] & [ys Hys]) (_ & _ & H); congruence.
Qed.

Lemma fit_fails_not_score_fails (w : DataFrame) :
  fit_fails w -> ~ score_fails w.
Proof.
  intros (_ & H) (_ & [xs Hxs] & _); congruence.
Qed.

(** The outcome of a call, from the kind of its two windows. *)
Lemma getSigmaP_outcome (f : lookup) (rt rn : range) (self : Boone) :
  let d := data self in
  let wT := windowTOP f d rt in
  let wN := windowNCL f d rn in
  let out := getSigmaP f rt rn self in
  (wT = [] -> out = (self, Raise TypeError)) /\
  (fit_fails wT -> out = (self, Raise LinAlgError)) /\
  (score_fails wT -> out = (self, Raise ValueError)) /\
  (fit_succeeds wT -> wN = [] -> out = (self, Raise TypeError)) /\
  (fit_succeeds wT -> fit_fails wN -> out = (self, Raise LinAlgError)) /\
  (fit_succeeds wT -> score_fails wN -> out = (self, Raise ValueError)) /\
  (fit_succeeds wT -> fit_succeeds wN -> (length (cleaned d) < 2)%nat ->
   out = (self, Raise IndexError)) /\
  (fit_succeeds wT -> fit_succeeds wN -> (2 <= length (cleaned d))%nat ->
   exists self' L, out = (self', Return L)).
Proof.
  intros d wT wN out.
  assert (NE : forall w, fit_fails w \/ score_fails w \/ fit_succeeds w ->
                         w <> []).
  { intros w [[H _] | [[H _] | [H _]]]; exact H. }
  pose proof (@fit_succeeds_not_fails wT) as A1.
  pose proof (@fit_succeeds_not_score_fails wT) as A2.
  pose proof (@fit_fails_not_score_fails wT) as A3.
  pose proof (@fit_succeeds_not_fails wN) as B1.
  pose proof (@fit_succeeds_not_score_fails wN) as B2.
  pose proof (@fit_fails_not_score_fails wN) as B3.
  pose proof (NE wT) as NT. pose proof (NE wN) as NN.
  destruct (getSigmaP_cases f rt rn self)
    as [[HT E] | [[HT E] | [[HT E] | [(HT & HN & E) | [(HT & HN & E)
       | [(HT & HN & E) | [(HT & HN & Hl & E) | (HT & HN & Hl & E)]]]]]]];
    fold d in HT; fold wT in HT; fold out in E;
    try (fold d in HN; fold wN in HN); try (fold d in Hl);
    repeat split; intros; try exact E; try tauto; try lia;
    try (exfalso; tauto).
Qed.

Lemma polyval_cubic (x a b c d : R) :
  polyval (Fin x) [Fin a; Fin b; Fin c; Fin d]
  = Fin (a + x * (b + x * (c + x * d))).
Proof. unfold polyval. simpl. f_equal. lra. Qed.


(** A call on two windows that can be fitted returns, however many rows the
    windows have. *)
Lemma getSigmaP_fits_returns (f : lookup) (rt rn : range) (self : Boone) :
  fit_succeeds (windowTOP f (data self) rt) ->
  fit_succeeds (windowNCL f (data self) rn) ->
  (2 <= length (cleaned (data self)))%nat ->
  exists self' L, getSigmaP f rt rn self = (self', Return L).
Proof. apply getSigmaP_outcome. Qed.

(** A returning call has fitted both windows. *)
Lemma getSigmaP_returns_fits (f : lookup) (rt rn : range) (self self' : Boone)
  (L : Locals) :
  getSigmaP f rt rn self = (self', Return L) ->
  fit_succeeds (windowTOP f (data self) rt) /\
  fit_succeeds (windowNCL f (data self) rn) /\
  (2 <= length (cleaned (data self)))%nat.
Proof.
  intros H.
  destruct (getSigmaP_cases f rt rn self)
    as [[_ E] | [[_ E] | [[_ E] | [(_ & _ & E) | [(_ & _ & E) | [(_ & _ & E)
       | [(_ & _ & _ & E) | (HT & HN & Hlen & _)]]]]]]];
    try (rewrite E in H; discriminate H).
  auto.
Qed.

(** The coefficients fitted on a window that can be fitted are finite. *)
Lemma fit_succeeds_coefficients (w : DataFrame) (deg : nat)
  (c : list float64) :
  fit_succeeds w -> polyfit (logs w) (col_e w) deg = Return c ->
  exists rs, c = map Fin rs.
Proof.
  intros HS H. destruct (fit_succeeds_returns deg HS) as (rs & _ & E & _).
  rewrite E in H. apply Return_inj in H. now exists rs.
Qed.

(** The values a returning call has computed, when the in-situ stress is
    positive and the recompression index is finite: none of them is an
    infinity or [nan]. *)
Lemma getSigmaP_finite (f : lookup) (rt rn : range) (self self' : Boone)
  (L : Locals) :
  getSigmaP f rt rn self = (self', Return L) ->
  pos_stress (sigmaV (data self)) -> finite (idxCr (data self)) ->
  exists a b c i v s : R,
    p2_0 L = Fin a /\ p2_1 L = Fin b /\ eCr L = Fin c /\
    idxCr (data self) = Fin i /\ eSigmaV L = Fin v /\
    np.log10 (sigmaV (data self)) = Fin s.
Proof.
  intros H Hv Hi.
  destruct (getSigmaP_returns_fits f rt rn self H) as (ST & SN & _).
  destruct (getSigmaP_inv f rt rn self H) as (_ & _ & H1 & HV & _ & _ & H2 & HC & _).
  destruct (fit_succeeds_coefficients 3 ST H1) as [c1 E1].
  destruct (fit_succeeds_coefficients 1 SN H2) as [c2 E2].
  destruct c1 as [| a0 [| a1 [| a2 [| a3 [| ? ?]]]]]; try discriminate.
  destruct c2 as [| b0 [| b1 [| ? ?]]]; try discriminate.
  injection E1 as E10 E11 E12 E13. injection E2 as E20 E21.
  destruct (idxCr (data self)) as [i | | |] eqn:Ei; try contradiction.
  destruct (sigmaV (data self)) as [sv | | |] eqn:Es; try contradiction.
  simpl in Hv.
  assert (Hlog : np.log10 (Fin sv) = Fin (ln sv / ln 10)).
  { simpl. now rewrite (Rltb_true Hv). }
  rewrite Hlog, E10, E11, E12, E13, polyval_cubic in HV.
  rewrite HV, Hlog in HC. simpl in HC.
  exists b0, b1. eexists. exists i. eexists. exists (ln sv / ln 10).
  split; [exact E20 |]. split; [exact E21 |]. split; [exact HC |].
  split; [reflexivity |]. split; [exact HV | exact Hlog].
Qed.


Lemma sigmaP_of_return (f : lookup) (rt rn : range) (self self' : Boone)
  (L : Locals) :
  getSigmaP f rt rn self = (self', Return L) ->
  sigmaP self' =
  Some (pow10 ((p2_0 L - eCr L) / (- idxCr (data self) - p2_1 L))%f64).
Proof.
  intros H.
  destruct (getSigmaP_inv f rt rn self H) as (_ & _ & _ & _ & _ & _ & _ & _ & -> & _).
  reflexivity.
Qed.

(** A call on two non-empty windows of positive stresses and finite void
    ratios returns, however many rows the windows have. *)
Lemma getSigmaP_returns (f : lookup) (rt rn : range) (self : Boone) :
  windowTOP f (data self) rt <> [] -> loggable (windowTOP f (data self) rt) ->
  windowNCL f (data self) rn <> [] -> loggable (windowNCL f (data self) rn) ->
  (2 <= length (cleaned (data self)))%nat ->
  exists self' L, getSigmaP f rt rn self = (self', Return L).
Proof.
  intros HT HTl HN HNl Hlen.
  apply getSigmaP_fits_returns; auto using loggable_fit_succeeds.
Qed.

(** A failing call leaves the object as it was, and fails with one of four
    library errors. *)
Lemma getSigmaP_raises (f : lookup) (rt rn : range) (self self' : Boone)
  (e : exn) :
  getSigmaP f rt rn self = (self', Raise e) ->
  self' = self /\
  (e = TypeError \/ e = LinAlgError \/ e = ValueError \/ e = IndexError).
Proof.
  intros H.
  destruct (getSigmaP_cases f rt rn self)
    as [[_ E] | [[_ E] | [[_ E] | [(_ & _ & E) | [(_ & _ & E) | [(_ & _ & E)
       | [(_ & _ & _ & E) | (_ & _ & _ & s & L & E)]]]]]]];
    rewrite E in H; try discriminate H;
    injection H as <- <-; auto.
Qed.

Ltac loggable_rows :=
  unfold loggable; repeat constructor; simpl; lra.

Lemma oedometer7_windowTOP (f : lookup) :
  windowTOP f oedometer7 None = rows [100; 200; 400] [19/20; 9/10; 4/5].
Proof. reflexivity. Qed.

Lemma oedometer7_windowNCL (f : lookup) :
  windowNCL f oedometer7 None = rows [400; 800; 1600] [4/5; 7/10; 3/5].
Proof. reflexivity. Qed.

Lemma oedometer7_returns (f : lookup) :
  exists self' L, getSigmaP f None None (init oedometer7) = (self', Return L).
Proof.
  apply getSigmaP_returns; cbn [data init].
  - rewrite oedometer7_windowTOP. discriminate.
  - rewrite oedometer7_windowTOP. loggable_rows.
  - rewrite oedometer7_windowNCL. discriminate.
  - rewrite oedometer7_windowNCL. loggable_rows.
  - simpl. lia.
Qed.

(** ** Least squares on points of a line *)








(** ** The decade data *)





Lemma decades4_parallel_windowTOP (f : lookup) :
  windowTOP f decades4_parallel None = rows [10; 100] [4/5; 3/5].
Proof. reflexivity. Qed.

Lemma decades4_parallel_windowNCL (f : lookup) :
  windowNCL f decades4_parallel None = rows [10; 100; 1000] [4/5; 3/5; 2/5].
Proof. reflexivity. Qed.

Lemma decades4_parallel_fits (f : lookup) :
  fit_succeeds (windowTOP f decades4_parallel None) /\
  fit_succeeds (windowNCL f decades4_parallel None).
Proof.
  rewrite decades4_parallel_windowTOP, decades4_parallel_windowNCL.
  split; apply loggable_fit_succeeds; try discriminate; loggable_rows.
Qed.

(** On these data the recompression index is minus the fitted slope. *)
Lemma decades4_parallel_slope (f : lookup) :
  fitted_slope (windowNCL f decades4_parallel None)
  = (- idxCr decades4_parallel)%f64.
Proof. symmetry. apply neg_involutive. Qed.







(** ** The range of the power (line 117) *)











(** ** The intersection (lines 111-118) *)






(** ** The reference line (lines 98-99 and 111-112) *)

(** C5.  When the call returns, [eSigmaV] is the third-order polynomial
    fitted on the TOP window evaluated by [polyval] at [x = log10(sigmaV)],
    that is [p1_0 + (p1_1 + (p1_2 + (p1_3 + x*0)*x)*x)*x], with
    [x = ln(sigmaV)/ln(10)] for a positive in-situ stress, and the intercept
    of the reference line is [eCr = eSigmaV + idxCr * log10(sigmaV)].  As a
    real function, the line of intercept [v + i*s] and slope [-i] takes the
    value [v] at [s]. *)
Theorem reference_line_intercept (f : lookup) (rt rn : range)
  (self self' : Boone) (L : Locals) :
  getSigmaP f rt rn self = (self', Return L) ->
  let d := data self in
  let x := np.log10 (sigmaV d) in
  polyfit (logs (windowTOP f d rt)) (col_e (windowTOP f d rt)) 3
    = Return [p1_0 L; p1_1 L; p1_2 L; p1_3 L] /\
  eSigmaV L = polyval x [p1_0 L; p1_1 L; p1_2 L; p1_3 L] /\
  eSigmaV L
  = (p1_0 L + (p1_1 L + (p1_2 L + (p1_3 L + x * Fin 0) * x) * x) * x)%f64 /\
  eCr L = (eSigmaV L + idxCr d * x)%f64 /\
  (forall sv : R, sigmaV d = Fin sv -> 0 < sv -> x = Fin (ln sv / ln 10)) /\
  (forall a0 a1 a2 a3 s : R,
     p1_0 L = Fin a0 -> p1_1 L = Fin a1 -> p1_2 L = Fin a2 ->
     p1_3 L = Fin a3 -> x = Fin s ->
     eSigmaV L = Fin (a0 + (a1 + (a2 + (a3 + s * 0) * s) * s) * s)) /\
  (forall v i s : R,
     eSigmaV L = Fin v -> idxCr d = Fin i -> x = Fin s ->
     eCr L = Fin (v + i * s)) /\
  (forall v i s : R, (v + i * s) - i * s = v).
Proof.
  intros H d x. subst d x.
  destruct (getSigmaP_inv f rt rn self H) as (_ & _ & H1 & HV & _ & _ & _ & HC & _).
  assert (HC' : eCr L = (eSigmaV L + idxCr (data self)
                                     * np.log10 (sigmaV (data self)))%f64).
  { rewrite HC. apply sub_neg_mul. }
  split; [exact H1 |]. split; [exact HV |]. split; [exact HV |].
  split; [exact HC' |]. split; [| split; [| split]].
  - intros sv -> Hsv. simpl. now rewrite (Rltb_true Hsv).
  - intros a0 a1 a2 a3 s E0 E1 E2 E3 Es.
    rewrite HV, E0, E1, E2, E3, Es. reflexivity.
  - intros v i s Ev Ei Es. rewrite HC', Ev, Ei, Es. reflexivity.
  - intros v i s. ring.
Qed.

Lemma reference_line_intercept_witness :
  exists self' L,
    getSigmaP find_index None None (init oedometer7) = (self', Return L) /\
    np.log10 (sigmaV oedometer7) = Fin (ln 150 / ln 10) /\
    eSigmaV L
    = (p1_0 L + (p1_1 L + (p1_2 L + (p1_3 L + np.log10 (Fin 150) * Fin 0)
                                    * np.log10 (Fin 150))
                          * np.log10 (Fin 150))
                * np.log10 (Fin 150))%f64 /\
    eCr L = (eSigmaV L + Fin (1/50) * np.log10 (Fin 150))%f64.
Proof.
  destruct (oedometer7_returns find_index) as (self' & L & H).
  exists self', L. split; [exact H |].
  destruct (reference_line_intercept find_index None None _ H)
    as (_ & _ & HV & HC & Hx & _).
  split; [| split; [exact HV | exact HC]].
  apply (Hx 150); [reflexivity | lra].
Defined.

(** ** The fit windows (lines 71-87) *)

Lemma getSigmaP_windows (f : lookup) (rt rn : range) (self self' : Boone)
  (L : Locals) :
  getSigmaP f rt rn self = (self', Return L) ->
  sigmaTOP L = col_stress (windowTOP f (data self) rt) /\
  eTOP L = col_e (windowTOP f (data self) rt) /\
  sigmaNCL L = col_stress (windowNCL f (data self) rn) /\
  eNCL L = col_e (windowNCL f (data self) rn).
Proof.
  intros H.
  destruct (getSigmaP_inv f rt rn self H) as (H1 & H2 & _ & _ & H3 & H4 & _).
  auto.
Qed.

Lemma nth_error_firstn_skipn {A : Type} (s : list A) (lo len k : nat) :
  (k < len)%nat ->
  nth_error (firstn len (skipn lo s)) k = nth_error s (lo + k).
Proof.
  intros Hk. rewrite nth_error_firstn.
  destruct (Nat.ltb_spec k len); [| lia].
  apply nth_error_skipn.
Qed.

(** C4.  With [range2fitTOP] omitted, the TOP window is the slice of the
    cleaned data from index [floor(n/3)] (included) to index [ceil(2n/3)]
    (excluded), [n] being the number of cleaned rows; with a range supplied,
    both bounds are the answers of [findStressIdx] on the cleaned data.  The
    stresses and void ratios fitted by a returning call are those of this
    window. *)
Theorem top_window (f : lookup) (d : Data) :
  let n := length (cleaned d) in
  let lo := Z.to_nat (np.floor_third (Z.of_nat n)) in
  let hi := Z.to_nat (np.ceil_two_thirds (Z.of_nat n)) in
  (3 * lo <= n < 3 * lo + 3)%nat /\ (2 * n <= 3 * hi < 2 * n + 3)%nat /\
  (lo <= hi <= n)%nat /\
  idxTOP f d None = (Some (Z.of_nat lo), Some (Z.of_nat hi)) /\
  windowTOP f d None = firstn (hi - lo) (skipn lo (cleaned d)) /\
  length (windowTOP f d None) = (hi - lo)%nat /\
  (forall k, (k < hi - lo)%nat ->
     nth_error (windowTOP f d None) k = nth_error (cleaned d) (lo + k)) /\
  (forall r0 r1 : float64,
     idxTOP f d (Some (r0, r1)) = (f d r0 true, f d r1 true) /\
     windowTOP f d (Some (r0, r1))
     = slice (cleaned d) (f d r0 true) (f d r1 true)) /\
  (forall (rt rn : range) (self self' : Boone) (L : Locals),
     data self = d -> getSigmaP f rt rn self = (self', Return L) ->
     sigmaTOP L = col_stress (windowTOP f d rt) /\
     eTOP L = col_e (windowTOP f d rt)).
Proof.
  intros n lo hi.
  pose proof (floor_third_spec (Z.of_nat n)) as Hf.
  pose proof (ceil_two_thirds_spec (Z.of_nat n)) as Hc.
  pose proof (@floor_third_bounds (Z.of_nat n) ltac:(lia)) as Hb.
  assert (Hlo : Z.of_nat lo = np.floor_third (Z.of_nat n)) by (subst lo; lia).
  assert (Hhi : Z.of_nat hi = np.ceil_two_thirds (Z.of_nat n)) by (subst hi; lia).
  assert (Hw : windowTOP f d None = firstn (hi - lo) (skipn lo (cleaned d))).
  { unfold windowTOP, idxTOP. cbn [fst snd]. fold n.
    rewrite slice_between by (fold n; lia). reflexivity. }
  split; [lia |]. split; [lia |]. split; [lia |]. split.
  { unfold idxTOP. fold n. now rewrite Hlo, Hhi. }
  split; [exact Hw |]. split.
  { rewrite Hw, length_firstn, length_skipn. fold n. lia. }
  split.
  { intros k Hk. rewrite Hw. now apply nth_error_firstn_skipn. }
  split.
  { intros r0 r1. split; reflexivity. }
  intros rt rn self self' L <- H.
  destruct (getSigmaP_windows f rt rn self H) as (H1 & H2 & _). auto.
Qed.

(** ** The index lookup *)

Lemma fabs_not_below (x : float64) (z : R) :
  z <= 0 -> (fabs x <? Fin z)%f64 = false.
Proof.
  intros Hz. destruct x; simpl; try reflexivity.
  apply Rltb_false. pose proof (Rabs_pos r). lra.
Qed.

(** Once an entry at distance zero is found, the scan keeps it. *)
Lemma nearest_from_zero (target : float64) (s : list float64) (i best : Z)
  (z : R) :
  z <= 0 -> nearest_from target s i best (Fin z) = best.
Proof.
  intros Hz. revert i. induction s as [| x s IH]; intros i; simpl.
  - reflexivity.
  - rewrite fabs_not_below by assumption. apply IH.
Qed.

(** The scan stops on the first entry equal to the target, when the entries
    before it are finite and differ from it. *)
Lemma nearest_from_hit (t : R) (pre post : list R) (i best : Z) (dd : R) :
  0 < dd -> ~ In t pre ->
  nearest_from (Fin t) (map Fin (pre ++ t :: post)) i best (Fin dd)
  = (i + Z.of_nat (length pre))%Z.
Proof.
  revert i best dd. induction pre as [| p pre IH]; intros i best dd Hdd Hin.
  - simpl. replace (t + - t) with 0 by lra. rewrite Rabs_R0.
    rewrite (Rltb_true Hdd). rewrite nearest_from_zero by lra. lia.
  - assert (Hp : 0 < Rabs (p + - t)).
    { apply Rabs_pos_lt. intros E. apply Hin. left. lra. }
    assert (Hin' : ~ In t pre) by (intros E; apply Hin; now right).
    cbn [app map nearest_from length]. simpl fabs.
    destruct (Fin (Rabs (p + - t)) <? Fin dd)%f64.
    + rewrite IH by assumption. simpl length. lia.
    + rewrite IH by assumption. simpl length. lia.
Qed.

(** On a cleaned series of finite stresses, the lookup of a stress of the
    series that no earlier row carries answers the index of its row. *)
Lemma find_index_exact (d : Data) (pre post : list R) (t : R) :
  col_stress (cleaned d) = map Fin (pre ++ t :: post) -> ~ In t pre ->
  find_index d (Fin t) true = Some (Z.of_nat (length pre)).
Proof.
  intros Hs Hin. unfold find_index. rewrite Hs.
  destruct pre as [| p pre].
  - simpl. replace (t + - t) with 0 by lra. rewrite Rabs_R0.
    now rewrite nearest_from_zero by lra.
  - assert (Hp : 0 < Rabs (p + - t)).
    { apply Rabs_pos_lt. intros E. apply Hin. left. lra. }
    assert (Hin' : ~ In t pre) by (intros E; apply Hin; now right).
    cbn [app map]. simpl fabs. rewrite nearest_from_hit by assumption.
    f_equal. simpl length. lia.
Qed.

(** ** The maximum of a series *)

Lemma series_max_step (l : list R) (m : R) :
  fold_left (fun m x => match x, m with
                        | NaN, _ => m
                        | _, NaN => x
                        | _, _ => if (m <? x)%f64 then x else m
                        end) (map Fin l) (Fin m)
  = Fin (fold_left Rmax l m).
Proof.
  revert m. induction l as [| a l IH]; intros m; simpl.
  - reflexivity.
  - replace (if Rltb m a then Fin a else Fin m) with (Fin (Rmax m a)).
    + apply IH.
    + unfold Rltb, Rmax. destruct (Rlt_dec m a), (Rle_dec m a);
        try reflexivity; try lra. f_equal. lra.
Qed.

Lemma series_max_finite (a : R) (l : list R) :
  series_max (map Fin (a :: l)) = Fin (fold_left Rmax l a).
Proof. unfold series_max. simpl. apply series_max_step. Qed.

Lemma fold_Rmax_le (l : list R) (m t : R) :
  m <= t -> Forall (fun a => a <= t) l -> fold_left Rmax l m <= t.
Proof.
  revert m. induction l as [| a l IH]; intros m Hm Hl; simpl.
  - exact Hm.
  - inversion Hl; subst. apply IH; [| assumption].
    unfold Rmax. destruct (Rle_dec m a); lra.
Qed.

(** A requested stress that no cleaned stress exceeds is not below the
    maximum of the series. *)
Lemma not_below_series_max (l : list R) (t : R) :
  Forall (fun a => a <= t) l -> (Fin t <? series_max (map Fin l))%f64 = false.
Proof.
  intros Hl. destruct l as [| a l]; [reflexivity |].
  rewrite series_max_finite. simpl. apply Rltb_false.
  inversion Hl; subst. now apply fold_Rmax_le.
Qed.

Lemma fold_Rmax_In (l : list R) (m : R) :
  fold_left Rmax l m = m \/ In (fold_left Rmax l m) l.
Proof.
  revert m. induction l as [| a l IH]; intros m; simpl; [now left |].
  destruct (IH (Rmax m a)) as [E | Hin]; [| now right; right].
  rewrite E. unfold Rmax. destruct (Rle_dec m a); auto.
Qed.

Lemma fold_Rmax_ge (l : list R) (m : R) :
  m <= fold_left Rmax l m /\ Forall (fun a => a <= fold_left Rmax l m) l.
Proof.
  revert m. induction l as [| a l IH]; intros m; simpl.
  - split; [lra | constructor].
  - destruct (IH (Rmax m a)) as [H1 H2].
    pose proof (Rmax_l m a). pose proof (Rmax_r m a).
    split; [lra |]. constructor; [lra | exact H2].
Qed.

(** The maximum of a series of finite stresses is one of them, and none of
    them exceeds it. *)
Lemma series_max_spec (ss : list R) :
  ss <> [] ->
  exists m : R, series_max (map Fin ss) = Fin m /\ In m ss /\
                Forall (fun s => s <= m) ss.
Proof.
  intros Hne. destruct ss as [| a l]; [contradiction |].
  exists (fold_left Rmax l a). split; [apply series_max_finite |].
  destruct (fold_Rmax_ge l a) as [H1 H2]. split.
  - destruct (fold_Rmax_In l a) as [-> | H]; [now left | now right].
  - now constructor.
Qed.

(** A requested stress that some cleaned stress exceeds is below the maximum
    of the series. *)
Lemma below_series_max (l : list R) (t : R) :
  Exists (fun a => t < a) l -> (Fin t <? series_max (map Fin l))%f64 = true.
Proof.
  intros H. apply Exists_exists in H. destruct H as (a & Hin & Ha).
  destruct (@series_max_spec l) as (m & -> & _ & Hle).
  { intros ->. contradiction. }
  rewrite Forall_forall in Hle. specialize (Hle _ Hin).
  simpl. apply Rltb_true. lra.
Qed.

(** ** The window of the NCL (lines 80-87) *)

(** C3.  With [range2fitNCL] omitted, the bounds of the NCL window are [-3]
    and [None], and the window of a cleaned data set of at least three rows
    is its last three rows.  With a range supplied, the lower bound is the
    answer of [findStressIdx]; the upper bound is the answer of
    [findStressIdx] when the requested end stress is below the maximum
    cleaned stress, and otherwise (end stress equal to the maximum or above
    it) there is no upper bound and the window runs from the row of the lower
    bound to the last row.  The maximum of finite cleaned stresses is one of
    them, and none exceeds it.  The stresses and void ratios fitted by a
    returning call are those of this window. *)
Theorem ncl_window (f : lookup) (d : Data) :
  let stresses := col_stress (cleaned d) in
  idxNCL f d None = (Some (-3)%Z, None) /\
  ((3 <= length (cleaned d))%nat ->
   windowNCL f d None = skipn (length (cleaned d) - 3) (cleaned d) /\
   length (windowNCL f d None) = 3%nat) /\
  (forall ss : list R, stresses = map Fin ss -> ss <> [] ->
     exists m : R, series_max stresses = Fin m /\ In m ss /\
                   Forall (fun s => s <= m) ss) /\
  (forall r0 r1 : float64,
     fst (idxNCL f d (Some (r0, r1))) = f d r0 true /\
     ((r1 <? series_max stresses)%f64 = true ->
      snd (idxNCL f d (Some (r0, r1))) = f d r1 true) /\
     ((r1 <? series_max stresses)%f64 = false ->
      snd (idxNCL f d (Some (r0, r1))) = None /\
      (exists k, windowNCL f d (Some (r0, r1)) = skipn k (cleaned d)) /\
      (forall k : nat, f d r0 true = Some (Z.of_nat k) ->
         (k <= length (cleaned d))%nat ->
         windowNCL f d (Some (r0, r1)) = skipn k (cleaned d)))) /\
  (forall (ss : list R) (r0 : float64) (a : R), stresses = map Fin ss ->
     (Exists (fun s => a < s) ss ->
      snd (idxNCL f d (Some (r0, Fin a))) = f d (Fin a) true) /\
     (Forall (fun s => s <= a) ss ->
      snd (idxNCL f d (Some (r0, Fin a))) = None)) /\
  (forall (rt rn : range) (self self' : Boone) (L : Locals),
     data self = d -> getSigmaP f rt rn self = (self', Return L) ->
     sigmaNCL L = col_stress (windowNCL f d rn) /\
     eNCL L = col_e (windowNCL f d rn)).
Proof.
  intros stresses.
  split; [reflexivity |]. split.
  { intros Hn.
    assert (Hw : windowNCL f d None
                 = skipn (length (cleaned d) - 3) (cleaned d)).
    { unfold windowNCL, idxNCL. cbn [fst snd]. now apply slice_last3. }
    split; [exact Hw |]. rewrite Hw, length_skipn. lia. }
  split.
  { intros ss Hs Hne. rewrite Hs. now apply series_max_spec. }
  split.
  { intros r0 r1. split; [reflexivity |]. split.
    - intros Hlt. unfold idxNCL. cbn [snd]. fold stresses. now rewrite Hlt.
    - intros Hge. unfold windowNCL, idxNCL. cbn [fst snd]. fold stresses.
      rewrite Hge. split; [reflexivity |]. split; [apply slice_to_end |].
      intros k -> Hk. now apply slice_from. }
  split.
  { intros ss r0 a Hs. unfold idxNCL. cbn [snd]. fold stresses. rewrite Hs.
    split; intros H.
    - now rewrite below_series_max.
    - now rewrite not_below_series_max. }
  intros rt rn self self' L <- H.
  destruct (getSigmaP_windows f rt rn self H) as (_ & _ & H3 & H4). auto.
Qed.

Lemma ncl_window_witness :
  windowNCL find_index oedometer7 None
  = rows [400; 800; 1600] [4/5; 7/10; 3/5] /\
  snd (idxNCL find_index oedometer7 (Some (Fin 400, Fin 800)))
  = find_index oedometer7 (Fin 800) true /\
  snd (idxNCL find_index oedometer7 (Some (Fin 400, Fin 1600))) = None.
Proof.
  destruct (ncl_window find_index oedometer7) as (_ & Hw & _ & _ & Hr & _).
  destruct Hw as [Hw _]; [simpl; lia |].
  destruct (Hr [25; 50; 100; 200; 400; 800; 1600] (Fin 400) 800 eq_refl)
    as [H800 _].
  destruct (Hr [25; 50; 100; 200; 400; 800; 1600] (Fin 400) 1600 eq_refl)
    as [_ H1600].
  split; [rewrite Hw; reflexivity |]. split.
  - apply H800. do 6 apply Exists_cons_tl. apply Exists_cons_hd. lra.
  - apply H1600. repeat constructor; lra.
Defined.

(** ** Non-positive stresses (lines 90-104) *)

Lemma nonpos_stress_not_finite (x : float64) :
  nonpos_stress x -> ~ finite (np.log10 x).
Proof.
  intros H. destruct (log10_nonpos_stress x H) as [-> | ->]; simpl; tauto.
Qed.

(** A window with a stress that is zero or negative cannot be fitted. *)
Lemma nonpos_fit_fails (w : DataFrame) :
  Exists (fun row => nonpos_stress (fst row)) w -> fit_fails w.
Proof.
  intros H. apply Exists_exists in H. destruct H as (row & Hin & Hrow).
  split.
  - intros ->. contradiction.
  - apply finite_all_None with (x := np.log10 (fst row)).
    + unfold logs, col_stress. rewrite map_map. apply in_map_iff. eauto.
    + now apply nonpos_stress_not_finite.
Qed.

Lemma finite_all_None_inv (l : list float64) :
  finite_all l = None -> Exists (fun x => ~ finite x) l.
Proof.
  induction l as [| x l IH]; simpl; [discriminate |].
  destruct x; try (intros _; apply Exists_cons_hd; simpl; tauto).
  destruct (finite_all l); [discriminate |].
  intros _. apply Exists_cons_tl. now apply IH.
Qed.

(** A window that [r2_score] rejects has a void ratio that is not finite. *)
Lemma score_fails_void_ratio (w : DataFrame) :
  score_fails w -> Exists (fun row => ~ finite (snd row)) w.
Proof.
  intros (_ & _ & H). apply finite_all_None_inv in H.
  unfold col_e in H. now rewrite Exists_map in H.
Qed.

(** C6 as amended.  A stress that is zero or negative in a fit window raises
    nothing where its logarithm is taken: [np.log10] answers [-inf] or [nan].
    The call then fails, and the object is unchanged: with numpy's
    LinAlgError, raised by [polyfit], when the stress is in the TOP window;
    when it is in the NCL window only, with that LinAlgError too, unless the
    TOP window, which is fitted first, has already failed, with the
    TypeError of [polyfit] when it is empty or the ValueError of [r2_score]
    when it holds a void ratio that is not finite. *)
Theorem nonpositive_stress_outcome (f : lookup) (rt rn : range) (self : Boone) :
  let wT := windowTOP f (data self) rt in
  let wN := windowNCL f (data self) rn in
  Exists (fun row => nonpos_stress (fst row)) wT \/
  Exists (fun row => nonpos_stress (fst row)) wN ->
  (np.log10 (Fin 0) = NInf /\
   forall a : R, a < 0 -> np.log10 (Fin a) = NaN) /\
  (Exists (fun row => nonpos_stress (fst row)) wT ->
   getSigmaP f rt rn self = (self, Raise LinAlgError)) /\
  (getSigmaP f rt rn self = (self, Raise LinAlgError) \/
   (wT = [] /\ getSigmaP f rt rn self = (self, Raise TypeError)) \/
   (Exists (fun row => ~ finite (snd row)) wT /\
    getSigmaP f rt rn self = (self, Raise ValueError))).
Proof.
  intros wT wN H. split.
  { split; [| intros a Ha]; simpl.
    - rewrite Rltb_false by lra. now rewrite Reqb_true.
    - rewrite Rltb_false by lra. now rewrite Reqb_false by lra. }
  destruct (getSigmaP_outcome f rt rn self)
    as (O1 & O2 & O3 & _ & O5 & _).
  fold wT in O1, O2, O3, O5. fold wN in O5.
  split.
  { intros HT. apply O2. now apply nonpos_fit_fails. }
  destruct H as [H | H]; apply nonpos_fit_fails in H.
  - left. now apply O2.
  - destruct (window_cases wT) as [HT | [HT | [HT | HT]]].
    + right; left. split; [exact HT | now apply O1].
    + left. now apply O2.
    + right; right. split; [now apply score_fails_void_ratio | now apply O3].
    + left. now apply O5.
Qed.

Ltac not_in_list :=
  simpl; intros H;
  repeat (destruct H as [H | H]; [lra |]); contradiction.

Lemma oedometer8_windowTOP :
  windowTOP find_index oedometer8 (Some (Fin 0, Fin 400))
  = rows [0; 25; 50; 100; 200] [51/50; 1; 49/50; 19/20; 9/10].
Proof.
  unfold windowTOP, idxTOP.
  rewrite (@find_index_exact oedometer8 [] [25; 50; 100; 200; 400; 800; 1600] 0)
    by (reflexivity || not_in_list).
  rewrite (@find_index_exact oedometer8 [0; 25; 50; 100; 200] [800; 1600] 400)
    by (reflexivity || not_in_list).
  reflexivity.
Qed.

Lemma oedometer8_zero_in_window :
  Exists (fun row => nonpos_stress (fst row))
         (windowTOP find_index oedometer8 (Some (Fin 0, Fin 400))).
Proof. rewrite oedometer8_windowTOP. apply Exists_cons_hd. simpl. lra. Qed.

Lemma nonpositive_stress_outcome_witness :
  Exists (fun row => nonpos_stress (fst row))
         (windowTOP find_index oedometer8 (Some (Fin 0, Fin 400))) /\
  getSigmaP find_index (Some (Fin 0, Fin 400)) None (init oedometer8)
  = (init oedometer8, Raise LinAlgError).
Proof.
  split; [exact oedometer8_zero_in_window |].
  destruct (@nonpositive_stress_outcome find_index (Some (Fin 0, Fin 400)) None
              (init oedometer8) (or_introl oedometer8_zero_in_window))
    as (_ & H & _).
  exact (H oedometer8_zero_in_window).
Defined.

Lemma oedometer8_fails :
  getSigmaP find_index (Some (Fin 0, Fin 400)) None (init oedometer8)
  = (init oedometer8, Raise LinAlgError).
Proof.
  destruct (getSigmaP_outcome find_index (Some (Fin 0, Fin 400)) None
              (init oedometer8)) as (_ & O2 & _).
  apply O2. apply nonpos_fit_fails. exact oedometer8_zero_in_window.
Qed.

(** C6, refuted as stated: the range 0 to 400 kPa on the test with a reading
    at zero stress selects that reading, and the call fails with LinAlgError,
    not with DomainError. *)
Lemma zero_stress_no_DomainError :
  In (Fin 0)
     (col_stress (windowTOP find_index oedometer8 (Some (Fin 0, Fin 400)))) /\
  snd (getSigmaP find_index (Some (Fin 0, Fin 400)) None (init oedometer8))
  = Raise LinAlgError /\
  snd (getSigmaP find_index (Some (Fin 0, Fin 400)) None (init oedometer8))
  <> Raise DomainError.
Proof.
  rewrite oedometer8_fails. split; [| split].
  - rewrite oedometer8_windowTOP. now left.
  - reflexivity.
  - discriminate.
Qed.

(** ** Windows with few rows (lines 101-107) *)

Lemma getSigmaP_never_raises (f : lookup) (rt rn : range) (self : Boone)
  (e : exn) :
  e <> TypeError -> e <> LinAlgError -> e <> ValueError -> e <> IndexError ->
  snd (getSigmaP f rt rn self) <> Raise e.
Proof.
  intros H1 H2 H3 H4 E.
  destruct (getSigmaP f rt rn self) as [self' r] eqn:H. cbn [snd] in E.
  subst r.
  destruct (getSigmaP_raises f rt rn self H) as (_ & [-> | [-> | [-> | ->]]]);
    contradiction.
Qed.

(** C7 as amended.  The number of rows of a window is not checked against
    the degree of its fit, and InvalidRangeError is never raised.  An empty
    window makes the call fail with the TypeError of [polyfit]; a window
    that is not empty, with positive stresses and finite void ratios, is
    fitted whatever its number of rows, and the call returns when the cleaned
    data has two rows or more. *)
Theorem short_window_outcome (f : lookup) (rt rn : range) (self : Boone) :
  let wT := windowTOP f (data self) rt in
  let wN := windowNCL f (data self) rn in
  (wT = [] -> getSigmaP f rt rn self = (self, Raise TypeError)) /\
  (fit_succeeds wT -> wN = [] ->
   getSigmaP f rt rn self = (self, Raise TypeError)) /\
  (wT <> [] -> loggable wT -> wN <> [] -> loggable wN ->
   (2 <= length (cleaned (data self)))%nat ->
   exists self' L, getSigmaP f rt rn self = (self', Return L)) /\
  snd (getSigmaP f rt rn self) <> Raise InvalidRangeError.
Proof.
  intros wT wN. subst wT wN.
  split; [| split; [| split]].
  - apply getSigmaP_outcome.
  - apply getSigmaP_outcome.
  - apply getSigmaP_returns.
  - apply getSigmaP_never_raises; discriminate.
Qed.

Lemma oedometer7_stresses :
  col_stress (cleaned oedometer7) = map Fin [25; 50; 100; 200; 400; 800; 1600].
Proof. reflexivity. Qed.

Lemma oedometer7_single_row :
  windowNCL find_index oedometer7 (Some (Fin 1600, Fin 1600))
  = rows [1600] [3/5].
Proof.
  unfold windowNCL, idxNCL. rewrite oedometer7_stresses.
  rewrite not_below_series_max by (repeat constructor; lra).
  rewrite (@find_index_exact oedometer7 [25; 50; 100; 200; 400; 800] [] 1600)
    by (reflexivity || not_in_list).
  reflexivity.
Qed.

Lemma short_window_outcome_witness :
  length (windowNCL find_index oedometer7 (Some (Fin 1600, Fin 1600))) = 1%nat /\
  exists self' L,
    getSigmaP find_index None (Some (Fin 1600, Fin 1600)) (init oedometer7)
    = (self', Return L).
Proof.
  split; [now rewrite oedometer7_single_row |].
  destruct (short_window_outcome find_index None (Some (Fin 1600, Fin 1600))
              (init oedometer7)) as (_ & _ & H & _).
  cbn [data init] in H. apply H.
  - rewrite oedometer7_windowTOP. discriminate.
  - rewrite oedometer7_windowTOP. loggable_rows.
  - rewrite oedometer7_single_row. discriminate.
  - rewrite oedometer7_single_row. loggable_rows.
  - simpl. lia.
Defined.

(** C7, refuted as stated: the range 1600 to 1600 kPa resolves to an NCL
    window of a single row, and the call returns. *)
Lemma single_row_no_InvalidRangeError :
  length (windowNCL find_index oedometer7 (Some (Fin 1600, Fin 1600))) = 1%nat /\
  (exists self' L,
     getSigmaP find_index None (Some (Fin 1600, Fin 1600)) (init oedometer7)
     = (self', Return L)) /\
  snd (getSigmaP find_index None (Some (Fin 1600, Fin 1600)) (init oedometer7))
  <> Raise InvalidRangeError.
Proof.
  split; [now rewrite oedometer7_single_row |]. split.
  - apply getSigmaP_returns; cbn [data init].
    + rewrite oedometer7_windowTOP. discriminate.
    + rewrite oedometer7_windowTOP. loggable_rows.
    + rewrite oedometer7_single_row. discriminate.
    + rewrite oedometer7_single_row. loggable_rows.
    + simpl. lia.
  - apply getSigmaP_never_raises; discriminate.
Qed.

(** ** The effect on the object (lines 117 and 120-149) *)

(** The whole method raises what its numerical part raises, and otherwise
    returns or raises as the drawing does. *)
Lemma getSigmaP_fig_cases (plot : plotting) (f : lookup) (rt rn : range)
  (self : Boone) :
  (exists e, getSigmaP f rt rn self = (self, Raise e) /\
             getSigmaP_fig plot f rt rn self = (self, Raise e)) \/
  (exists self' L,
     getSigmaP f rt rn self = (self', Return L) /\
     getSigmaP_fig plot f rt rn self
     = (self', match plot self' L with
               | None => Return L
               | Some e => Raise e
               end)).
Proof.
  unfold getSigmaP_fig, bind.
  destruct (getSigmaP f rt rn self) as [s [L | e]] eqn:H.
  - right. exists s, L. split; [reflexivity |]. now destruct (plot s L).
  - left. destruct (getSigmaP_raises f rt rn self H) as [-> _]. now exists e.
Qed.

(** C8 as amended.  The method does not change [self.data] and has one
    effect on the object: once the intersection is computed (line 117) the
    preconsolidation pressure is stored in [self.sigmaP].  A call that
    returns has stored it; a call that fails before line 117, in the fits or
    at a positional access, leaves the object exactly as it was; a call that
    fails afterwards, while the figure is drawn, leaves the pressure it has
    computed on the object. *)
Theorem getSigmaP_frame (plot : plotting) (f : lookup) (rt rn : range)
  (self : Boone) :
  let stored (L : Locals) :=
    {| data := data self;
       sigmaP := Some (pow10 ((p2_0 L - eCr L) /
                              (- idxCr (data self) - p2_1 L))%f64) |} in
  match getSigmaP_fig plot f rt rn self with
  | (self', Return L) =>
      getSigmaP f rt rn self = (self', Return L) /\ plot self' L = None /\
      self' = stored L
  | (self', Raise e) =>
      (getSigmaP f rt rn self = (self, Raise e) /\ self' = self) \/
      (exists L, getSigmaP f rt rn self = (self', Return L) /\
                 plot self' L = Some e /\ self' = stored L)
  end.
Proof.
  intros stored.
  destruct (getSigmaP_fig_cases plot f rt rn self)
    as [(e & H & ->) | (self' & L & H & ->)].
  - now left.
  - assert (Hs : self' = stored L).
    { now destruct (getSigmaP_inv f rt rn self H)
        as (_ & _ & _ & _ & _ & _ & _ & _ & ? & _). }
    destruct (plot self' L) as [e |] eqn:Hp.
    + right. now exists L.
    + auto.
Qed.

(** C8, refuted as stated: the call on the seven-step test changes the
    object, and when the drawing fails the call raises while the pressure
    stays on the object. *)
Lemma getSigmaP_changes_object :
  (exists self' L,
     getSigmaP_fig plot_ok find_index None None (init oedometer7)
     = (self', Return L) /\ self' <> init oedometer7) /\
  (exists self',
     getSigmaP_fig plot_fails find_index None None (init oedometer7)
     = (self', Raise RuntimeError) /\
     sigmaP (init oedometer7) = None /\ sigmaP self' <> None).
Proof.
  destruct (oedometer7_returns find_index) as (self' & L & H).
  pose proof (sigmaP_of_return find_index None None _ H) as HP.
  split.
  - exists self', L. unfold getSigmaP_fig, bind. rewrite H.
    split; [reflexivity |]. intros E. rewrite E in HP. discriminate HP.
  - exists self'. unfold getSigmaP_fig, bind. rewrite H.
    split; [reflexivity |]. split; [reflexivity |]. rewrite HP. discriminate.
Qed.

(** ** Parallel lines (lines 116-117) *)

Lemma pow10_of_nonfinite (q : float64) :
  q = PInf \/ q = NInf \/ q = NaN ->
  pow10 q = PInf \/ pow10 q = Fin 0 \/ pow10 q = NaN.
Proof. intros [-> | [-> | ->]]; simpl; auto. Qed.

Lemma fitted_slope_of (w : DataFrame) (a b : float64) :
  polyfit (logs w) (col_e w) 1 = Return [a; b] -> fitted_slope w = b.
Proof. intros H. unfold fitted_slope. now rewrite H. Qed.

(** C2 as amended.  When both windows can be fitted and the slope fitted on
    the NCL window equals [-idxCr], no error is raised: the quotient of the
    intersection is a division by zero, which numpy answers with an infinity
    or [nan], and the numerical part returns with [self.sigmaP] equal to
    [inf], [0] or [nan]. *)
Theorem parallel_lines_outcome (f : lookup) (rt rn : range) (self : Boone) :
  fit_succeeds (windowTOP f (data self) rt) ->
  fit_succeeds (windowNCL f (data self) rn) ->
  (2 <= length (cleaned (data self)))%nat ->
  fitted_slope (windowNCL f (data self) rn) = (- idxCr (data self))%f64 ->
  exists self' L,
    getSigmaP f rt rn self = (self', Return L) /\
    p2_1 L = (- idxCr (data self))%f64 /\
    (- idxCr (data self) - p2_1 L)%f64 = Fin 0 /\
    (sigmaP self' = Some PInf \/ sigmaP self' = Some (Fin 0) \/
     sigmaP self' = Some NaN).
Proof.
  intros HT HN Hlen Hb.
  destruct (getSigmaP_fits_returns f rt rn self HT HN Hlen) as (self' & L & E).
  exists self', L. split; [exact E |].
  destruct (getSigmaP_inv f rt rn self E)
    as (_ & _ & _ & _ & _ & _ & H2 & _).
  fold (logs (windowNCL f (data self) rn)) in H2.
  destruct (fit_succeeds_coefficients 1 HN H2) as [rs Hrs].
  destruct rs as [| a [| b [| ? ?]]]; try discriminate Hrs.
  injection Hrs as Ha Hb1.
  rewrite (fitted_slope_of _ H2) in Hb.
  assert (Hden : (- idxCr (data self) - p2_1 L)%f64 = Fin 0).
  { rewrite <- Hb, Hb1. simpl. f_equal. lra. }
  split; [exact Hb |]. split; [exact Hden |].
  rewrite (sigmaP_of_return f rt rn self E), Hden.
  destruct (pow10_of_nonfinite (div_by_zero (p2_0 L - eCr L)%f64))
    as [-> | [-> | ->]]; auto.
Qed.

Lemma parallel_lines_outcome_witness :
  exists self' L,
    getSigmaP find_index None None (init decades4_parallel)
    = (self', Return L) /\
    p2_1 L = (- idxCr decades4_parallel)%f64 /\
    (- idxCr decades4_parallel - p2_1 L)%f64 = Fin 0 /\
    (sigmaP self' = Some PInf \/ sigmaP self' = Some (Fin 0) \/
     sigmaP self' = Some NaN).
Proof.
  destruct (decades4_parallel_fits find_index) as [HT HN].
  apply (@parallel_lines_outcome find_index None None (init decades4_parallel)).
  - exact HT.
  - exact HN.
  - simpl. lia.
  - exact (decades4_parallel_slope find_index).
Defined.

(** C2, refuted as stated: on the decade data, with the recompression index
    set to minus the slope that [polyfit] answers on the NCL window, the
    fitted slope is [-idxCr] and the call returns. *)
Lemma parallel_lines_no_NoIntersectionError :
  (exists self' L,
     getSigmaP find_index None None (init decades4_parallel)
     = (self', Return L) /\
     p2_1 L = (- idxCr decades4_parallel)%f64) /\
  snd (getSigmaP find_index None None (init decades4_parallel))
  <> Raise NoIntersectionError.
Proof.
  split.
  - destruct (decades4_parallel_fits find_index) as [HT HN].
    destruct (@getSigmaP_fits_returns find_index None None
                (init decades4_parallel) HT HN) as (self' & L & H);
      [simpl; lia |].
    exists self', L. split; [exact H |].
    destruct (getSigmaP_inv find_index None None _ H)
      as (_ & _ & _ & _ & _ & _ & H2 & _).
    fold (logs (windowNCL find_index (data (init decades4_parallel)) None))
      in H2.
    rewrite <- (decades4_parallel_slope find_index).
    symmetry. exact (fitted_slope_of _ H2).
  - apply getSigmaP_never_raises; discriminate.
Qed.

(** ** Default ranges made explicit (lines 71-87) *)

(** The call depends on its ranges through the two windows only. *)
Lemma getSigmaP_same_windows (f g : lookup) (rt rn rt' rn' : range)
  (self : Boone) :
  windowTOP f (data self) rt = windowTOP g (data self) rt' ->
  windowNCL f (data self) rn = windowNCL g (data self) rn' ->
  getSigmaP f rt rn self = getSigmaP g rt' rn' self.
Proof.
  unfold windowTOP, windowNCL, getSigmaP, bind, get_data.
  destruct (idxTOP f (data self) rt) as [iT jT].
  destruct (idxNCL f (data self) rn) as [iN jN].
  destruct (idxTOP g (data self) rt') as [iT' jT'].
  destruct (idxNCL g (data self) rn') as [iN' jN'].
  cbn [fst snd]. intros HT HN.
  unfold col_stress, col_e. rewrite !slice_map, HT, HN. reflexivity.
Qed.

Lemma sorted_before (pre post : list R) (t : R) :
  StronglySorted Rlt (pre ++ t :: post) -> ~ In t pre.
Proof.
  induction pre as [| p pre IH]; intros Hs Hin; [contradiction |].
  simpl in Hs. apply StronglySorted_inv in Hs. destruct Hs as [Hs Hp].
  destruct Hin as [-> | Hin].
  - rewrite Forall_forall in Hp.
    specialize (Hp t). assert (In t (pre ++ t :: post)) by (apply in_elt).
    specialize (Hp H). lra.
  - now apply IH.
Qed.

Lemma sorted_le_last (ss : list R) :
  StronglySorted Rlt ss -> Forall (fun a => a <= last ss 0) ss.
Proof.
  induction 1 as [| a l Hs IH Ha]; [constructor |].
  destruct l as [| b l].
  - constructor; [simpl; lra | constructor].
  - change (last (a :: b :: l) 0) with (last (b :: l) 0).
    constructor; [| exact IH].
    rewrite Forall_forall in Ha.
    assert (Hin : In (last (b :: l) 0) (b :: l)).
    { destruct (@exists_last _ (b :: l)) as (l' & z & E); [discriminate |].
      rewrite E, last_last. apply in_elt. }
    specialize (Ha _ Hin). lra.
Qed.

(** On strictly increasing cleaned stresses, the lookup of the stress of a
    row answers the index of the row. *)
Lemma find_index_sorted (d : Data) (ss : list R) (k : nat) :
  col_stress (cleaned d) = map Fin ss -> StronglySorted Rlt ss ->
  (k < length ss)%nat ->
  find_index d (Fin (nth k ss 0)) true = Some (Z.of_nat k).
Proof.
  intros Hs Hsorted Hk.
  destruct (nth_split ss 0 Hk) as (pre & post & E & Hlen).
  subst k. apply find_index_exact with (post := post).
  - rewrite Hs. f_equal. exact E.
  - rewrite E in Hsorted. now apply sorted_before in Hsorted.
Qed.

(** C9 as amended.  On cleaned data of at least three rows with strictly
    increasing finite stresses, and with the index lookup of the
    specification, the call with explicit ranges is the call with both
    ranges omitted when [range2fitNCL] goes from the stress of the third row
    from the end to the stress of the last row, and [range2fitTOP] goes from
    the stress of row [floor(n/3)] to the stress of row [ceil(2n/3)], the
    first row after the default window: the upper bound of a supplied range
    is excluded, except at the maximum stress for the NCL. *)
Theorem default_ranges_made_explicit (self : Boone) (ss : list R) :
  col_stress (cleaned (data self)) = map Fin ss ->
  StronglySorted Rlt ss -> (3 <= length ss)%nat ->
  let n := length ss in
  let lo := Z.to_nat (np.floor_third (Z.of_nat n)) in
  let hi := Z.to_nat (np.ceil_two_thirds (Z.of_nat n)) in
  (lo <= hi < n)%nat /\
  getSigmaP find_index
    (Some (Fin (nth lo ss 0), Fin (nth hi ss 0)))
    (Some (Fin (nth (n - 3) ss 0), Fin (last ss 0))) self
  = getSigmaP find_index None None self.
Proof.
  intros Hs Hsorted Hn n lo hi.
  assert (Hlen : length (cleaned (data self)) = n).
  { apply (f_equal (@length float64)) in Hs. unfold col_stress in Hs.
    now rewrite !length_map in Hs. }
  pose proof (floor_third_spec (Z.of_nat n)) as Hf.
  pose proof (ceil_two_thirds_spec (Z.of_nat n)) as Hc.
  pose proof (@floor_third_bounds (Z.of_nat n) ltac:(lia)) as Hb.
  assert (Hhi : (lo <= hi < n)%nat) by (subst lo hi; lia).
  split; [exact Hhi |].
  apply getSigmaP_same_windows.
  - unfold windowTOP, idxTOP.
    rewrite (find_index_sorted (data self) Hs Hsorted) by (fold n; lia).
    rewrite (find_index_sorted (data self) Hs Hsorted) by (fold n; lia).
    cbn [fst snd]. rewrite Hlen. subst lo hi. rewrite !Z2Nat.id by lia.
    reflexivity.
  - unfold windowNCL, idxNCL. rewrite Hs.
    rewrite not_below_series_max by (now apply sorted_le_last).
    rewrite (find_index_sorted (data self) Hs Hsorted) by (fold n; lia).
    cbn [fst snd]. rewrite slice_from by lia.
    rewrite slice_last3 by lia. now rewrite Hlen.
Qed.

Lemma default_ranges_made_explicit_witness :
  getSigmaP find_index
    (Some (Fin 100, Fin 800)) (Some (Fin 400, Fin 1600)) (init oedometer7)
  = getSigmaP find_index None None (init oedometer7).
Proof.
  refine (proj2 (@default_ranges_made_explicit (init oedometer7)
                   [25; 50; 100; 200; 400; 800; 1600] _ _ _)).
  - reflexivity.
  - repeat constructor; lra.
  - simpl. lia.
Defined.

Lemma oedometer7_explicit_windowTOP :
  windowTOP find_index oedometer7 (Some (Fin 100, Fin 400))
  = rows [100; 200] [19/20; 9/10].
Proof.
  unfold windowTOP, idxTOP.
  rewrite (@find_index_exact oedometer7 [25; 50] [200; 400; 800; 1600] 100)
    by (reflexivity || not_in_list).
  rewrite (@find_index_exact oedometer7 [25; 50; 100; 200] [800; 1600] 400)
    by (reflexivity || not_in_list).
  reflexivity.
Qed.

(** C9, refuted as stated: on the seven-step test the default TOP window
    spans 100 to 400 kPa and the default NCL window 400 to 1600 kPa, and the
    call with these two ranges differs from the call without ranges: the row
    at 400 kPa is left out of the TOP fit. *)
Lemma explicit_default_ranges_differ :
  col_stress (windowTOP find_index oedometer7 None)
  = map Fin [100; 200; 400] /\
  col_stress (windowNCL find_index oedometer7 None)
  = map Fin [400; 800; 1600] /\
  getSigmaP find_index
    (Some (Fin 100, Fin 400)) (Some (Fin 400, Fin 1600)) (init oedometer7)
  <> getSigmaP find_index None None (init oedometer7).
Proof.
  split; [reflexivity |]. split; [reflexivity |].
  destruct (oedometer7_returns find_index) as (self' & L & H).
  rewrite H. intros E.
  destruct (getSigmaP_windows find_index _ _ _ E) as (H1 & _).
  destruct (getSigmaP_windows find_index _ _ _ H) as (H2 & _).
  cbn [data init] in H1, H2.
  rewrite oedometer7_explicit_windowTOP in H1.
  rewrite oedometer7_windowTOP, H1 in H2. discriminate H2.
Qed.

(** * Further properties of [getSigmaP] *)

(** ** When the call returns *)

Lemma log10_finite_pos (x : float64) : finite (np.log10 x) -> pos_stress x.
Proof.
  destruct x as [a | | |]; simpl; try contradiction.
  unfold Rltb, Reqb. destruct (Rlt_dec 0 a); [tauto |].
  destruct (Req_dec_T a 0); simpl; contradiction.
Qed.

Lemma finite_all_Forall_inv (l : list float64) (rs : list R) :
  finite_all l = Some rs -> Forall finite l.
Proof.
  intros H. rewrite (finite_all_Some _ H). apply Forall_map.
  apply Forall_forall. intros; exact I.
Qed.

Lemma fit_succeeds_loggable (w : DataFrame) :
  fit_succeeds w -> w <> [] /\ loggable w.
Proof.
  intros (Hw & [xs Hxs] & [ys Hys]). split; [assumption |].
  apply finite_all_Forall_inv in Hxs. apply finite_all_Forall_inv in Hys.
  unfold logs, col_stress, col_e in *. rewrite !Forall_map in Hxs.
  rewrite Forall_map in Hys. unfold loggable.
  rewrite Forall_forall in *. intros row Hin. split.
  - apply log10_finite_pos. now apply Hxs.
  - now apply Hys.
Qed.

(** What a returning call tells about its windows. *)
Lemma getSigmaP_returns_inv (f : lookup) (rt rn : range) (self self' : Boone)
  (L : Locals) :
  getSigmaP f rt rn self = (self', Return L) ->
  windowTOP f (data self) rt <> [] /\ loggable (windowTOP f (data self) rt) /\
  windowNCL f (data self) rn <> [] /\ loggable (windowNCL f (data self) rn) /\
  (2 <= length (cleaned (data self)))%nat.
Proof.
  intros H.
  destruct (getSigmaP_returns_fits f rt rn self H) as (HT & HN & Hlen).
  destruct (fit_succeeds_loggable HT), (fit_succeeds_loggable HN). auto.
Qed.

(** X1.  The call returns exactly when both windows are non-empty, hold only
    positive finite stresses and finite void ratios, and the cleaned data has
    two rows or more. *)
Theorem getSigmaP_returns_iff (f : lookup) (rt rn : range) (self : Boone) :
  (exists self' L, getSigmaP f rt rn self = (self', Return L)) <->
  (windowTOP f (data self) rt <> [] /\ loggable (windowTOP f (data self) rt) /\
   windowNCL f (data self) rn <> [] /\ loggable (windowNCL f (data self) rn) /\
   (2 <= length (cleaned (data self)))%nat).
Proof.
  split.
  - intros (self' & L & H). exact (getSigmaP_returns_inv f rt rn self H).
  - intros (HT & HTl & HN & HNl & Hlen). now apply getSigmaP_returns.
Qed.

(** ** Data with no row or a single row *)

Lemma slice_nil {A : Type} (i j : option Z) : slice (@nil A) i j = [].
Proof. unfold slice. now rewrite skipn_nil, firstn_nil. Qed.

Lemma empty_window_TypeError (f : lookup) (rt rn : range) (self : Boone) :
  windowTOP f (data self) rt = [] ->
  getSigmaP f rt rn self = (self, Raise TypeError).
Proof.
  apply getSigmaP_outcome.
Qed.

(** X2.  On a data object without cleaned rows every call fails with the
    TypeError of [polyfit], whatever the ranges and the index lookup, and the
    object is unchanged. *)
Theorem no_rows_TypeError (f : lookup) (rt rn : range) (self : Boone) :
  cleaned (data self) = [] ->
  getSigmaP f rt rn self = (self, Raise TypeError).
Proof.
  intros H. apply empty_window_TypeError. unfold windowTOP.
  rewrite H. apply slice_nil.
Qed.

Lemma no_rows_TypeError_witness :
  let d := {| raw := []; cleaned := []; sigmaV := Fin 150;
              idxCr := Fin (1/50) |} in
  getSigmaP find_index (Some (Fin 100, Fin 400)) None (init d)
  = (init d, Raise TypeError).
Proof. intros d. apply (@no_rows_TypeError find_index _ None (init d)). reflexivity. Defined.

(** X3.  On cleaned data of a single row, with a positive stress and a finite
    void ratio, the call with default ranges fits both windows on that row
    and then fails with IndexError at the second cleaned stress
    ([iloc[1]], line 113); [self.sigmaP] is not assigned. *)
Theorem single_row_IndexError (f : lookup) (self : Boone)
  (row : float64 * float64) :
  cleaned (data self) = [row] -> pos_stress (fst row) -> finite (snd row) ->
  windowTOP f (data self) None = [row] /\
  windowNCL f (data self) None = [row] /\
  getSigmaP f None None self = (self, Raise IndexError).
Proof.
  intros Hd Hp Hf.
  assert (HT : windowTOP f (data self) None = [row]).
  { unfold windowTOP, idxTOP. now rewrite Hd. }
  assert (HN : windowNCL f (data self) None = [row]).
  { unfold windowNCL, idxNCL. now rewrite Hd. }
  split; [exact HT |]. split; [exact HN |].
  assert (Hlog : loggable [row]) by (repeat constructor; assumption).
  assert (Hne : [row] <> []) by discriminate.
  pose proof (loggable_fit_succeeds Hne Hlog) as Hs.
  destruct (getSigmaP_outcome f None None self)
    as (_ & _ & _ & _ & _ & _ & O7 & _).
  apply O7.
  - now rewrite HT.
  - now rewrite HN.
  - rewrite Hd. simpl. lia.
Qed.

Lemma single_row_IndexError_witness :
  let d := {| raw := rows [100] [9/10]; cleaned := rows [100] [9/10];
              sigmaV := Fin 150; idxCr := Fin (1/50) |} in
  getSigmaP find_index None None (init d) = (init d, Raise IndexError).
Proof.
  intros d.
  apply (@single_row_IndexError find_index (init d) (Fin 100, Fin (9/10))).
  - reflexivity.
  - simpl. lra.
  - exact I.
Defined.

(** ** A range that ends before it starts *)

Lemma slice_reversed {A : Type} (s : list A) (i j : Z) :
  (0 <= j <= i)%Z -> slice s (Some i) (Some j) = [].
Proof.
  intros H. unfold slice, slice_bound.
  destruct (Z.ltb_spec i 0); [lia |]. destruct (Z.ltb_spec j 0); [lia |].
  replace (Z.to_nat (Z.min j (Z.of_nat (length s)) -
                     Z.min i (Z.of_nat (length s)))) with 0%nat by lia.
  reflexivity.
Qed.

(** X4.  When the lookup answers, for the end of [range2fitTOP], an index
    that is not after the index of its start (a range given backwards, or
    two pressures of one load step), the TOP window is empty and the call
    fails with TypeError. *)
Theorem backward_range_TypeError (f : lookup) (rn : range) (self : Boone)
  (r0 r1 : float64) (i j : Z) :
  f (data self) r0 true = Some i -> f (data self) r1 true = Some j ->
  (0 <= j <= i)%Z ->
  windowTOP f (data self) (Some (r0, r1)) = [] /\
  getSigmaP f (Some (r0, r1)) rn self = (self, Raise TypeError).
Proof.
  intros Hi Hj Hij.
  assert (HT : windowTOP f (data self) (Some (r0, r1)) = []).
  { unfold windowTOP, idxTOP. cbn [fst snd]. rewrite Hi, Hj.
    now apply slice_reversed. }
  split; [exact HT | now apply empty_window_TypeError].
Qed.

Lemma backward_range_TypeError_witness :
  getSigmaP find_index (Some (Fin 400, Fin 100)) None (init oedometer7)
  = (init oedometer7, Raise TypeError).
Proof.
  apply (@backward_range_TypeError find_index None (init oedometer7)
           (Fin 400) (Fin 100) 4 2).
  - apply (@find_index_exact oedometer7 [25; 50; 100; 200] [800; 1600] 400);
      [reflexivity | not_in_list].
  - apply (@find_index_exact oedometer7 [25; 50] [200; 400; 800; 1600] 100);
      [reflexivity | not_in_list].
  - lia.
Defined.

(** ** The default windows *)

Lemma windowTOP_default (f : lookup) (d : Data) :
  let n := length (cleaned d) in
  let lo := Z.to_nat (np.floor_third (Z.of_nat n)) in
  let hi := Z.to_nat (np.ceil_two_thirds (Z.of_nat n)) in
  windowTOP f d None = firstn (hi - lo) (skipn lo (cleaned d)).
Proof.
  intros n lo hi.
  pose proof (@floor_third_bounds (Z.of_nat n) ltac:(lia)) as Hb.
  unfold windowTOP, idxTOP. cbn [fst snd]. fold n.
  rewrite slice_between by (fold n; lia). reflexivity.
Qed.

Lemma windowNCL_default (f : lookup) (d : Data) :
  windowNCL f d None = skipn (length (cleaned d) - 3) (cleaned d).
Proof.
  unfold windowNCL, idxNCL. cbn [fst snd]. unfold slice, slice_bound.
  change (-3 <? 0)%Z with true. cbv iota.
  replace (Z.to_nat (Z.max 0 (-3 + Z.of_nat (length (cleaned d)))))
    with (length (cleaned d) - 3)%nat by lia.
  apply firstn_all2. rewrite length_skipn. lia.
Qed.

(** X5.  With both ranges omitted, the TOP window has
    [ceil(2n/3) - floor(n/3)] rows and the NCL window [min(n, 3)] rows, [n]
    being the number of cleaned rows.  Neither is empty as soon as there is
    a row, and the TOP window has the four rows a third-order polynomial
    needs exactly when [n = 8] or [n >= 10]. *)
Theorem default_window_sizes (f : lookup) (d : Data) :
  let n := length (cleaned d) in
  let sizeTOP := length (windowTOP f d None) in
  let sizeNCL := length (windowNCL f d None) in
  Z.of_nat sizeTOP
  = (np.ceil_two_thirds (Z.of_nat n) - np.floor_third (Z.of_nat n))%Z /\
  sizeNCL = Nat.min n 3 /\
  ((1 <= n)%nat -> (1 <= sizeTOP)%nat /\ (1 <= sizeNCL)%nat) /\
  ((4 <= sizeTOP)%nat <-> n = 8%nat \/ (10 <= n)%nat).
Proof.
  intros n sizeTOP sizeNCL. subst sizeTOP sizeNCL.
  rewrite windowTOP_default, windowNCL_default.
  rewrite length_firstn, !length_skipn. fold n.
  pose proof (floor_third_spec (Z.of_nat n)) as Hf.
  pose proof (ceil_two_thirds_spec (Z.of_nat n)) as Hc.
  pose proof (@floor_third_bounds (Z.of_nat n) ltac:(lia)) as Hb.
  repeat split; lia.
Qed.

Lemma Forall_firstn_skipn {A : Type} (P : A -> Prop) (s : list A) (k m : nat) :
  Forall P s -> Forall P (firstn k (skipn m s)).
Proof.
  intros H. rewrite <- (firstn_skipn m s) in H. apply Forall_app in H.
  destruct H as [_ H]. rewrite <- (firstn_skipn k (skipn m s)) in H.
  apply Forall_app in H. tauto.
Qed.

Lemma default_windows_nonempty (f : lookup) (d : Data) :
  (1 <= length (cleaned d))%nat ->
  windowTOP f d None <> [] /\ windowNCL f d None <> [].
Proof.
  intros Hn.
  pose proof (floor_third_spec (Z.of_nat (length (cleaned d)))) as Hf.
  pose proof (ceil_two_thirds_spec (Z.of_nat (length (cleaned d)))) as Hc.
  split; intros E; apply (f_equal (@length _)) in E.
  - rewrite windowTOP_default, length_firstn, length_skipn in E.
    simpl in E. lia.
  - rewrite windowNCL_default, length_skipn in E. simpl in E. lia.
Qed.

(** X6.  On cleaned data of two rows or more, all with a positive finite
    stress and a finite void ratio, the call with both ranges omitted
    returns: no error is raised, whatever the in-situ stress and the
    recompression index. *)
Theorem default_call_returns (f : lookup) (self : Boone) :
  (2 <= length (cleaned (data self)))%nat -> loggable (cleaned (data self)) ->
  exists self' L, getSigmaP f None None self = (self', Return L).
Proof.
  intros Hn Hlog.
  destruct (@default_windows_nonempty f (data self)) as [HT HN]; [lia |].
  apply getSigmaP_returns; auto.
  - rewrite windowTOP_default. now apply Forall_firstn_skipn.
  - rewrite windowNCL_default.
    rewrite <- (firstn_all (skipn _ _)). now apply Forall_firstn_skipn.
Qed.

Lemma default_call_returns_witness :
  exists self' L,
    getSigmaP find_index None None (init oedometer7) = (self', Return L).
Proof.
  apply (@default_call_returns find_index (init oedometer7)).
  - simpl. lia.
  - cbn [data init]. loggable_rows.
Defined.

(** X7.  On cleaned data of four rows or more, the first row is in neither
    default window: when every row but the first has a positive finite
    stress and a finite void ratio, the call with both ranges omitted
    returns, even if the first reading is taken at zero stress. *)
Theorem default_call_skips_first_row (f : lookup) (self : Boone) :
  (4 <= length (cleaned (data self)))%nat ->
  loggable (tl (cleaned (data self))) ->
  exists self' L, getSigmaP f None None self = (self', Return L).
Proof.
  intros Hn Hlog.
  destruct (@default_windows_nonempty f (data self)) as [HT HN]; [lia |].
  pose proof (floor_third_spec (Z.of_nat (length (cleaned (data self))))) as Hf.
  apply getSigmaP_returns; auto; try lia.
  - rewrite windowTOP_default.
    destruct (cleaned (data self)) as [| row0 rest]; [simpl in Hn; lia |].
    simpl tl in Hlog.
    remember (Z.to_nat (np.floor_third (Z.of_nat (length (row0 :: rest)))))
      as lo eqn:Elo.
    destruct lo as [| lo]; [simpl length in *; lia |].
    rewrite skipn_cons. now apply Forall_firstn_skipn.
  - rewrite windowNCL_default.
    destruct (cleaned (data self)) as [| row0 rest]; [simpl in Hn; lia |].
    simpl tl in Hlog. simpl length in *.
    destruct (S (length rest) - 3)%nat as [| k] eqn:Ek; [lia |].
    rewrite skipn_cons, <- (firstn_all (skipn _ _)).
    now apply Forall_firstn_skipn.
Qed.

Lemma default_call_skips_first_row_witness :
  fst (hd (NaN, NaN) (cleaned oedometer8)) = Fin 0 /\
  exists self' L,
    getSigmaP find_index None None (init oedometer8) = (self', Return L).
Proof.
  split; [reflexivity |].
  apply (@default_call_skips_first_row find_index (init oedometer8)).
  - simpl. lia.
  - cbn [data init]. loggable_rows.
Defined.

(** ** The sign of the pressure *)

(** X8.  The pressure stored by a returning call is never negative and never
    [-inf]: it is a finite number that is zero or more, [+inf] or [nan]; and
    it is not [nan] when the in-situ stress is positive, the recompression
    index is finite and [-idxCr] differs from the slope of the NCL. *)
Theorem sigmaP_never_negative (f : lookup) (rt rn : range)
  (self self' : Boone) (L : Locals) :
  getSigmaP f rt rn self = (self', Return L) ->
  exists v : float64,
    sigmaP self' = Some v /\ v <> NInf /\
    (forall r, v = Fin r -> 0 <= r) /\
    (pos_stress (sigmaV (data self)) -> finite (idxCr (data self)) ->
     (- idxCr (data self))%f64 <> p2_1 L -> v <> NaN).
Proof.
  intros H. pose proof (sigmaP_of_return f rt rn self H) as HP.
  eexists. split; [exact HP |].
  split; [| split].
  - destruct (pow10_cases ((p2_0 L - eCr L) / (- idxCr (data self) - p2_1 L))%f64)
      as [-> | [-> | (r & -> & _)]]; discriminate.
  - intros r E.
    destruct (pow10_cases ((p2_0 L - eCr L) / (- idxCr (data self) - p2_1 L))%f64)
      as [E' | [E' | (r' & E' & Hr)]]; rewrite E' in E; try discriminate E.
    now injection E as <-.
  - intros Hv Hi Hne.
    destruct (getSigmaP_finite f rt rn self H Hv Hi)
      as (a & b & c & i & v & s & Ea & Eb & Ec & Ei & _).
    rewrite Ea, Eb, Ec, Ei. rewrite Eb, Ei in Hne.
    assert (Hib : - i + - b <> 0).
    { intros E. apply Hne. simpl. f_equal. lra. }
    simpl sub. simpl neg. unfold div. rewrite Reqb_false by exact Hib.
    apply pow10_finite_exponent.
Qed.

Lemma sigmaP_never_negative_witness :
  exists self' L,
    getSigmaP find_index None None (init oedometer7) = (self', Return L) /\
    exists v : float64,
      sigmaP self' = Some v /\ v <> NInf /\ forall r, v = Fin r -> 0 <= r.
Proof.
  destruct (oedometer7_returns find_index) as (self' & L & H).
  exists self', L. split; [exact H |].
  destruct (sigmaP_never_negative find_index None None _ H)
    as (v & Hv & Hn & Hr & _).
  exists v. auto.
Defined.

(** ** Calling again *)

Ltac walk :=
  repeat match goal with
         | |- context [match polyfit ?x ?y ?d with _ => _ end] =>
             destruct (polyfit x y d); [| reflexivity]
         | |- context [match unpack4 ?c with _ => _ end] =>
             destruct (unpack4 c) as [[[[? ?] ?] ?] |]; [| reflexivity]
         | |- context [match unpack2 ?c with _ => _ end] =>
             destruct (unpack2 c) as [[? ?] |]; [| reflexivity]
         | |- context [match r2_score ?x ?y with _ => _ end] =>
             destruct (r2_score x y); [| reflexivity]
         | |- context [match iloc ?s ?i with _ => _ end] =>
             destruct (iloc s i); [| reflexivity]
         end.

(** The outcome of the numerical part depends on [self.data] and not on a
    pressure stored before. *)
Lemma getSigmaP_data_only (f : lookup) (rt rn : range) (d : Data)
  (v1 v2 : option float64) :
  match getSigmaP f rt rn {| data := d; sigmaP := v1 |},
        getSigmaP f rt rn {| data := d; sigmaP := v2 |} with
  | (s1, Return L1), (s2, Return L2) => L1 = L2 /\ s1 = s2
  | (_, Raise e1), (_, Raise e2) => e1 = e2
  | _, _ => False
  end.
Proof.
  unfold getSigmaP, bind, get_data, call, set_sigmaP, ret. cbn [data].
  destruct (idxTOP f d rt) as [iT jT]. destruct (idxNCL f d rn) as [iN jN].
  walk. split; reflexivity.
Qed.

(** The numerical part, called again on the object it has left, returns the
    same values and leaves the object as it is. *)
Lemma getSigmaP_again (f : lookup) (rt rn : range) (self self' : Boone)
  (L : Locals) :
  getSigmaP f rt rn self = (self', Return L) ->
  getSigmaP f rt rn self' = (self', Return L).
Proof.
  intros H.
  destruct (getSigmaP_inv f rt rn self H)
    as (_ & _ & _ & _ & _ & _ & _ & _ & Hs & _).
  cbv zeta in Hs.
  pose proof (getSigmaP_data_only f rt rn (data self) (sigmaP self)
                (sigmaP self')) as Hd.
  replace {| data := data self; sigmaP := sigmaP self |} with self in Hd
    by now destruct self.
  replace {| data := data self; sigmaP := sigmaP self' |} with self' in Hd
    by (rewrite Hs; reflexivity).
  rewrite H in Hd.
  destruct (getSigmaP f rt rn self') as [s2 [L2 | e2]]; [| contradiction].
  now destruct Hd as [<- <-].
Qed.

(** X9.  A call that returned, figure included, can be repeated: with the
    same arguments and a drawing that answers the same, it returns the same
    values and leaves the object as the first call left it.  After a later
    call that fails, with any ranges, the object still holds a pressure:
    the one stored by the earlier call when the failure precedes line 117,
    and the one computed by the failing call when the drawing fails. *)
Theorem call_again (plot : plotting) (f : lookup) (rt rn : range)
  (self self' : Boone) (L : Locals) :
  getSigmaP_fig plot f rt rn self = (self', Return L) ->
  getSigmaP_fig plot f rt rn self' = (self', Return L) /\
  (forall (rt' rn' : range) (self'' : Boone) (e : exn),
     getSigmaP_fig plot f rt' rn' self' = (self'', Raise e) ->
     sigmaP self'' <> None /\
     ((getSigmaP f rt' rn' self' = (self', Raise e) /\ self'' = self') \/
      (exists L', getSigmaP f rt' rn' self' = (self'', Return L') /\
                  plot self'' L' = Some e))).
Proof.
  intros H.
  assert (HN : getSigmaP f rt rn self = (self', Return L) /\
               plot self' L = None).
  { destruct (getSigmaP_fig_cases plot f rt rn self)
      as [(e & _ & E) | (s & L0 & E0 & E)]; rewrite E in H.
    - discriminate H.
    - pose proof (f_equal fst H) as Hs. cbn [fst] in Hs. subst s.
      pose proof (f_equal snd H) as Hr. cbn [snd] in Hr.
      destruct (plot self' L0) as [e |] eqn:Hp; [discriminate Hr |].
      apply Return_inj in Hr. subst L0. now split. }
  destruct HN as [HN Hp].
  pose proof (sigmaP_of_return f rt rn self HN) as HP.
  split.
  - unfold getSigmaP_fig, bind. rewrite (getSigmaP_again f rt rn self HN).
    now rewrite Hp.
  - intros rt' rn' self'' e E.
    destruct (getSigmaP_fig_cases plot f rt' rn' self')
      as [(e' & E1 & E2) | (s & L' & E1 & E2)]; rewrite E2 in E.
    + pose proof (f_equal fst E) as Hs. cbn [fst] in Hs. subst self''.
      pose proof (f_equal snd E) as Hr. cbn [snd] in Hr.
      injection Hr as ->.
      split; [rewrite HP; discriminate | now left].
    + pose proof (f_equal fst E) as Hs. cbn [fst] in Hs. subst s.
      pose proof (f_equal snd E) as Hr. cbn [snd] in Hr.
      destruct (plot self'' L') as [e' |] eqn:Hp'; [| discriminate Hr].
      injection Hr as ->.
      split.
      * rewrite (sigmaP_of_return f rt' rn' self' E1). discriminate.
      * right. now exists L'.
Qed.

Lemma call_again_witness :
  exists self' L,
    getSigmaP_fig plot_ok find_index None None (init oedometer7)
    = (self', Return L) /\
    getSigmaP_fig plot_ok find_index None None self' = (self', Return L).
Proof.
  destruct (oedometer7_returns find_index) as (self' & L & H).
  assert (HF : getSigmaP_fig plot_ok find_index None None (init oedometer7)
               = (self', Return L)).
  { unfold getSigmaP_fig, bind. now rewrite H. }
  exists self', L. split; [exact HF |].
  apply (call_again plot_ok find_index None None _ HF).
Defined.

(** ** The sampled curves (lines 94-97, 106-109 and 113-115) *)

Lemma linspace_length (a b : float64) (num : nat) :
  length (np.linspace a b num) = num.
Proof. unfold np.linspace. now rewrite length_map, length_seq. Qed.

Lemma linspace_last (a b d : float64) (k : nat) :
  last (np.linspace a b (S k)) d = b.
Proof.
  unfold np.linspace. rewrite seq_S, map_app. cbn [map]. rewrite last_last.
  simpl. rewrite Nat.sub_0_r, Nat.eqb_refl. reflexivity.
Qed.

Lemma linspace_first (a b : R) (d : float64) (k : nat) :
  hd d (np.linspace (Fin a) (Fin b) (S (S k))) = Fin a.
Proof.
  unfold np.linspace.
  change (seq 0 (S (S k))) with (0%nat :: seq 1 (S k)).
  change (S (S k) - 1)%nat with (S k).
  cbn [map hd Nat.eqb sub add neg div].
  rewrite Reqb_false by (apply not_0_INR; lia).
  cbn [mul add]. f_equal. change (INR 0) with 0. ring.
Qed.

(** What a returning call has drawn. *)
Lemma getSigmaP_curves (f : lookup) (rt rn : range) (self self' : Boone)
  (L : Locals) :
  getSigmaP f rt rn self = (self', Return L) ->
  let d := data self in
  let p1 := [p1_0 L; p1_1 L; p1_2 L; p1_3 L] in
  let p2 := [p2_0 L; p2_1 L] in
  exists t0 t1 n1 s1 s2 : float64,
    iloc (sigmaTOP L) 0 = Return t0 /\ iloc (sigmaTOP L) (-1) = Return t1 /\
    xFitTOP L = np.linspace t0 t1 500 /\
    yFitTOP L = map (fun x => polyval (np.log10 x) p1) (xFitTOP L) /\
    iloc (sigmaNCL L) (-1) = Return n1 /\
    xFitNCL L = np.linspace (sigmaV d) n1 500 /\
    yFitNCL L = map (fun x => polyval (np.log10 x) p2) (xFitNCL L) /\
    iloc (col_stress (cleaned d)) 1 = Return s1 /\
    iloc (col_stress (cleaned d)) (-1) = Return s2 /\
    xCrParallel L = np.linspace s1 s2 50 /\
    yCrParallel L
    = map (fun x => polyval (np.log10 x) [eCr L; (- idxCr d)%f64])
          (xCrParallel L) /\
    r2_score (eTOP L) (map (fun x => polyval x p1) (map np.log10 (sigmaTOP L)))
    = Return (r2TOP L) /\
    r2_score (eNCL L) (map (fun x => polyval x p2) (map np.log10 (sigmaNCL L)))
    = Return (r2NCL L).
Proof.
  intros H d p1 p2. subst d p1 p2.
  unfold getSigmaP, bind, get_data, call, set_sigmaP, ret in H.
  destruct (idxTOP f (data self) rt) as [iT jT].
  destruct (idxNCL f (data self) rn) as [iN jN].
  repeat step H.
  apply unpack4_inv in Hun. apply unpack2_inv in Hun0. subst.
  pose proof (f_equal snd H) as HL. cbn [snd] in HL.
  apply Return_inj in HL. subst L.
  cbn [sigmaTOP eTOP p1_0 p1_1 p1_2 p1_3 eSigmaV sigmaNCL eNCL p2_0 p2_1
       eCr eSigmaP xFitTOP yFitTOP xFitNCL yFitNCL xCrParallel yCrParallel
       r2TOP r2NCL].
  do 5 eexists. repeat split; eassumption || reflexivity.
Qed.

Lemma iloc_inv_first {A : Type} (s : list A) (a d : A) :
  iloc s 0 = Return a -> a = hd d s.
Proof.
  destruct s as [| b s]; [discriminate |].
  rewrite iloc_first. intros E. now injection E as <-.
Qed.

Lemma iloc_inv_last {A : Type} (s : list A) (a d : A) :
  iloc s (-1) = Return a -> a = last s d.
Proof.
  destruct s as [| b s]; [discriminate |].
  rewrite (@iloc_last _ (b :: s) d) by discriminate.
  intros E. now injection E as <-.
Qed.

(** X10.  A returning call samples the third-order polynomial on 500
    stresses from the first to the last stress of the TOP window, the NCL
    line on 500 stresses that end at the last stress of the NCL window and,
    for a finite in-situ stress, start at [sigmaV], and the reference line on
    50 stresses that end at the last cleaned stress; each curve has one
    ordinate per abscissa. *)
Theorem sampled_curves (f : lookup) (rt rn : range) (self self' : Boone)
  (L : Locals) :
  getSigmaP f rt rn self = (self', Return L) ->
  (length (xFitTOP L) = 500 /\ length (yFitTOP L) = 500 /\
   hd NaN (xFitTOP L) = hd NaN (sigmaTOP L) /\
   last (xFitTOP L) NaN = last (sigmaTOP L) NaN)%nat /\
  (length (xFitNCL L) = 500 /\ length (yFitNCL L) = 500 /\
   last (xFitNCL L) NaN = last (sigmaNCL L) NaN /\
   (finite (sigmaV (data self)) ->
    hd NaN (xFitNCL L) = sigmaV (data self)))%nat /\
  (length (xCrParallel L) = 50 /\ length (yCrParallel L) = 50 /\
   last (xCrParallel L) NaN
   = last (col_stress (cleaned (data self))) NaN)%nat.
Proof.
  intros H.
  destruct (getSigmaP_curves f rt rn self H)
    as (t0 & t1 & n1 & s1 & s2 & Ht0 & Ht1 & HxT & HyT & Hn1 & HxN & HyN
        & Hs1 & Hs2 & HxC & HyC & _).
  destruct (getSigmaP_windows f rt rn self H) as (HsT & _ & HsN & _).
  destruct (getSigmaP_returns_inv f rt rn self H)
    as (_ & HTl & HNne & HNl & _).
  apply (iloc_inv_first _ NaN) in Ht0. apply (iloc_inv_last _ NaN) in Ht1.
  apply (iloc_inv_last _ NaN) in Hn1. apply (iloc_inv_last _ NaN) in Hs2.
  assert (FT : Forall finite (sigmaTOP L)).
  { rewrite HsT. unfold col_stress. rewrite Forall_map.
    eapply Forall_impl; [| exact HTl]. intros [x y] [Hp _]. simpl in *.
    now destruct x. }
  assert (FN : Forall finite (sigmaNCL L)).
  { rewrite HsN. unfold col_stress. rewrite Forall_map.
    eapply Forall_impl; [| exact HNl]. intros [x y] [Hp _]. simpl in *.
    now destruct x. }
  split; [| split].
  - rewrite HyT, length_map, HxT, linspace_length.
    change 500%nat with (S 499) at 3. rewrite linspace_last.
    repeat split; auto.
    destruct (sigmaTOP L) as [| x0 s] eqn:Es.
    + subst t0 t1. reflexivity.
    + assert (Hf0 : finite t0).
      { subst t0. simpl. now inversion FT. }
      assert (Hf1 : finite t1).
      { subst t1. rewrite Forall_forall in FT. apply FT.
        destruct (@exists_last _ (x0 :: s)) as (s' & z & E); [discriminate |].
        rewrite E, last_last. apply in_elt. }
      destruct t0 as [a | | |]; try contradiction.
      destruct t1 as [b | | |]; try contradiction.
      change 500%nat with (S (S 498)). rewrite linspace_first. exact Ht0.
  - rewrite HyN, length_map, HxN, linspace_length.
    change 500%nat with (S 499) at 3. rewrite linspace_last.
    repeat split; auto.
    intros Hv.
    destruct (sigmaNCL L) as [| x0 s] eqn:Es.
    + unfold col_stress in HsN. symmetry in HsN.
      apply map_eq_nil in HsN. contradiction.
    + assert (Hf1 : finite n1).
      { subst n1. rewrite Forall_forall in FN. apply FN.
        destruct (@exists_last _ (x0 :: s)) as (s' & z & E); [discriminate |].
        rewrite E, last_last. apply in_elt. }
      destruct (sigmaV (data self)) as [a | | |]; try contradiction.
      destruct n1 as [b | | |]; try contradiction.
      change 500%nat with (S (S 498)). apply linspace_first.
  - rewrite HyC, length_map, HxC, linspace_length.
    change 50%nat with (S 49) at 3. rewrite linspace_last. auto.
Qed.

Lemma sampled_curves_witness :
  exists self' L,
    getSigmaP find_index None None (init oedometer7) = (self', Return L) /\
    length (xFitTOP L) = 500%nat /\ hd NaN (xFitNCL L) = Fin 150 /\
    length (xCrParallel L) = 50%nat.
Proof.
  destruct (oedometer7_returns find_index) as (self' & L & H).
  exists self', L. split; [exact H |].
  destruct (sampled_curves find_index None None _ H)
    as ((A & _) & (_ & _ & _ & B) & (C & _)).
  split; [exact A |]. split; [exact (B I) | exact C].
Defined.

(** ** Missing void ratios *)

Lemma nonfinite_e_score_fails (w : DataFrame) :
  Forall (fun row => pos_stress (fst row)) w ->
  Exists (fun row => ~ finite (snd row)) w -> score_fails w.
Proof.
  intros Hpos H. apply Exists_exists in H. destruct H as (row & Hin & Hrow).
  split; [| split].
  - intros ->. contradiction.
  - apply finite_all_Forall. unfold logs, col_stress. rewrite !Forall_map.
    eapply Forall_impl; [| exact Hpos]. intros r Hr.
    now apply log10_pos_stress.
  - apply finite_all_None with (x := snd row); [| assumption].
    unfold col_e. apply in_map_iff. eauto.
Qed.

(** X12.  A void ratio that is [nan] or infinite in a fit window of positive
    stresses is not rejected by [polyfit]: the call fails afterwards with
    the ValueError of [r2_score], at line 94 for the TOP window, and at line
    106 for the NCL window when the TOP window has been fitted; the object
    is unchanged. *)
Theorem missing_void_ratio_outcome (f : lookup) (rt rn : range) (self : Boone) :
  let wT := windowTOP f (data self) rt in
  let wN := windowNCL f (data self) rn in
  (Forall (fun row => pos_stress (fst row)) wT ->
   Exists (fun row => ~ finite (snd row)) wT ->
   (exists c, polyfit (logs wT) (col_e wT) 3 = Return c) /\
   getSigmaP f rt rn self = (self, Raise ValueError)) /\
  (fit_succeeds wT ->
   Forall (fun row => pos_stress (fst row)) wN ->
   Exists (fun row => ~ finite (snd row)) wN ->
   (exists c, polyfit (logs wN) (col_e wN) 1 = Return c) /\
   getSigmaP f rt rn self = (self, Raise ValueError)).
Proof.
  intros wT wN.
  destruct (getSigmaP_outcome f rt rn self)
    as (_ & _ & O3 & _ & _ & O6 & _).
  fold wT in O3, O6. fold wN in O6.
  split.
  - intros Hpos H. pose proof (nonfinite_e_score_fails Hpos H) as HS.
    split; [| now apply O3].
    eexists. exact (score_fails_returns 3 HS).
  - intros HT Hpos H. pose proof (nonfinite_e_score_fails Hpos H) as HS.
    split; [| now apply O6].
    eexists. exact (score_fails_returns 1 HS).
Qed.

Lemma missing_void_ratio_outcome_witness :
  let df := [(Fin 100, Fin (9/10)); (Fin 200, NaN); (Fin 400, Fin (4/5))] in
  let d := {| raw := df; cleaned := df; sigmaV := Fin 150;
              idxCr := Fin (1/50) |} in
  windowTOP find_index d None = [(Fin 200, NaN)] /\
  getSigmaP find_index None None (init d) = (init d, Raise ValueError).
Proof.
  intros df d. split; [reflexivity |].
  destruct (@missing_void_ratio_outcome find_index None None (init d))
    as [H _].
  apply H.
  - repeat constructor. simpl. lra.
  - apply Exists_cons_hd. simpl. tauto.
Defined.
